(** * vscode-codeql: data-extensions editor and legacy query runner

    A shallow embedding of
    - the [ExternalApi] webview component (message listener, usage
      aggregation, support percentages), and
    - the parts of the legacy query runner that [run-queries.test.ts]
      exercises (interpreted-results check, compile, database
      registration, CSV export),
    together with the properties the specification states about them. *)

From Stdlib Require Import ZArith QArith Ascii String Permutation Sorted.
From stdpp Require Import gmap strings list fin_maps pretty.

Local Open Scope Z_scope.

(** ** JavaScript string primitives

    Strings are sequences of code units; the indices are [Z] because
    [indexOf] and [lastIndexOf] answer [-1] when the character is
    absent, and [substring] accepts any number. *)

Module Js.

Fixpoint indexOf_from (c : ascii) (s : string) (i : Z) : Z :=
  match s with
  | EmptyString => -1
  | String a s' => if Ascii.eqb a c then i else indexOf_from c s' (i + 1)
  end.

(** [s.indexOf(c)] *)
Definition indexOf (c : ascii) (s : string) : Z := indexOf_from c s 0.

Fixpoint lastIndexOf_from (c : ascii) (s : string) (i found : Z) : Z :=
  match s with
  | EmptyString => found
  | String a s' =>
      lastIndexOf_from c s' (i + 1) (if Ascii.eqb a c then i else found)
  end.

(** [s.lastIndexOf(c)] *)
Definition lastIndexOf (c : ascii) (s : string) : Z :=
  lastIndexOf_from c s 0 (-1).

Definition len (s : string) : Z := Z.of_nat (String.length s).

(** An index argument of [substring]: below 0 counts as 0, above the
    length as the length. *)
Definition clamp (s : string) (i : Z) : Z := Z.max 0 (Z.min i (len s)).

(** [s.substring(start, end)]: both ends are clamped, and swapped when
    [start] is the larger. *)
Definition substring (s : string) (start end_ : Z) : string :=
  let a := clamp s start in
  let b := clamp s end_ in
  let lo := Z.min a b in
  let hi := Z.max a b in
  String.substring (Z.to_nat lo) (Z.to_nat (hi - lo)) s.

(** [s.substring(start)] *)
Definition substring_from (s : string) (start : Z) : string :=
  substring s start (len s).

(** [s.split(sep)] for a one-character separator: never empty, the
    empty string splits into one empty piece. *)
Fixpoint split (sep : ascii) (s : string) : list string :=
  match s with
  | EmptyString => [EmptyString]
  | String a s' =>
      if Ascii.eqb a sep then EmptyString :: split sep s'
      else match split sep s' with
           | [] => [String a EmptyString]
           | p :: ps => String a p :: ps
           end
  end.

(** [s.includes(c)] *)
Fixpoint includes (c : ascii) (s : string) : bool :=
  match s with
  | EmptyString => false
  | String a s' => Ascii.eqb a c || includes c s'
  end.

(** [s.replaceAll(c, r)] for a one-character pattern. *)
Fixpoint replaceAll (c : ascii) (r : string) (s : string) : string :=
  match s with
  | EmptyString => EmptyString
  | String a s' =>
      if Ascii.eqb a c then r +:+ replaceAll c r s'
      else String a (replaceAll c r s')
  end.

(** [parts.join(sep)] *)
Fixpoint join (sep : string) (parts : list string) : string :=
  match parts with
  | [] => EmptyString
  | [p] => p
  | p :: ps => p +:+ sep +:+ join sep ps
  end.

(** [arr.sort(compareFn)]. The language requires the sort to be
    stable and leaves the algorithm open; for a comparator that is a
    difference of keys every stable algorithm gives the same array, so
    the simplest one stands for it. [x] comes from the left of [l]:
    it stays in front of every element it does not compare greater
    than. *)
Fixpoint sort_insert {A} (compareFn : A -> A -> Z) (x : A) (l : list A)
  : list A :=
  match l with
  | [] => [x]
  | y :: l' =>
      if (compareFn x y <=? 0)%Z then x :: y :: l'
      else y :: sort_insert compareFn x l'
  end.

Fixpoint sort {A} (compareFn : A -> A -> Z) (l : list A) : list A :=
  match l with
  | [] => []
  | x :: l' => sort_insert compareFn x (sort compareFn l')
  end.

(** A thrown exception. *)
Inductive Exception : Type :=
| TypeError (what : string)
| ReferenceError (what : string)
| Error (message : string).

(** A JavaScript number as far as the component needs it: a finite
    value (kept exact, the rounding of doubles is not modelled), an
    infinity, or NaN. *)
Inductive Number : Type :=
| Finite (q : Q)
| Infinity
| NaN.

(** [a / b] for two array lengths. *)
Definition div_lengths (a b : nat) : Number :=
  match b, a with
  | O, O => NaN
  | O, S _ => Infinity
  | S _, _ => Finite (Z.of_nat a # Pos.of_nat b)
  end.

(** [x * k] for a positive finite constant [k]. *)
Definition times (x : Number) (k : Q) : Number :=
  match x with
  | Finite q => Finite (q * k)
  | Infinity => Infinity
  | NaN => NaN
  end.

End Js.

(** What a stable sort by a key, largest first, guarantees: the result
    is [descending], and for every value of the key the elements that
    have it ([withKey]) keep the order they had. *)
Definition descending {A} (key : A -> nat) : list A -> Prop :=
  StronglySorted (fun a b => (key b <= key a)%nat).

Definition withKey {A} (key : A -> nat) (n : nat) (l : list A) : list A :=
  List.filter (fun a => Nat.eqb (key a) n) l.

(** ** Shared data

    [DecodedBqrsChunk] (pure/bqrs-cli-types) is one page of a relation:
    the columns with their kinds, the rows, and the offset of the next
    page when there is one. It is kept generic in the row type: the CSV
    exporter reads rows of untyped cells, the editor casts each row to
    [(string, boolean, Call)]. *)

Record Column : Type := { kind : string }.

Record DecodedBqrsChunk (Row : Type) : Type := {
  columns : list Column;
  tuples : list Row;
  next : option Z;
}.
Arguments columns {Row} _.
Arguments tuples {Row} _.
Arguments next {Row} _.

(** Modelled from the spec: the [ModeledMethod] interface
    (data-extensions-editor/interface) is not among the sources; the
    data model gives its fields, of which the component reads [type]. *)
Record ModeledMethod : Type := {
  type : string;
  input : string;
  output : string;
  mkind : string;
}.

(** [{ ...a, ...b }]: the properties of [a], then those of [b] written
    over them. *)
Definition spread {V} (a b : gmap string V) : gmap string V := b ∪ a.

(** ** The ExternalApi component *)

Section ExternalApi.

(** A call site; the component only stores it. *)
Context {Call : Type}.
(** The persisted document and its loader (data-extensions-editor/yaml),
    which the component calls and does not define. *)
Context {YamlData : Type}.
Variable loadDataExtensionYaml : YamlData -> gmap string ModeledMethod.
(** [window.origin] *)
Variable window_origin : string.

Record ExternalApiUsage : Type := {
  externalApiInfo : string;
  packageName : string;
  typeName : string;
  methodName : string;
  methodParameters : string;
  supported : bool;
  usages : list Call;
}.

(** A row after the casts [tuple[0] as string], [tuple[1] as boolean],
    [tuple[2] as Call]. *)
Definition UsageTuple : Type := string * bool * Call.

Record ShowProgress : Type := {
  step : Z;
  maxStep : Z;
  message : string;
}.

Inductive ToDataExtensionsEditorMessage : Type :=
| setExternalApiRepoResults (results : DecodedBqrsChunk UsageTuple)
| showProgress (p : ShowProgress)
| setExistingYamlData (data : YamlData)
| addModeledMethods (modeledMethods : gmap string ModeledMethod).

Record MessageEvent : Type := {
  origin : string;
  data : ToDataExtensionsEditorMessage;
}.

(** The three [useState] cells. *)
Record State : Type := {
  results : option (DecodedBqrsChunk UsageTuple);
  modeledMethods : gmap string ModeledMethod;
  progress : ShowProgress;
}.

Definition initial : State :=
  {| results := None;
     modeledMethods := ∅;
     progress := {| step := 0; maxStep := 0; message := "" |} |}.

(** The updater passed to [setModeledMethods] on [setExistingYamlData]. *)
Definition onExistingYamlData (data : YamlData)
    (oldModeledMethods : gmap string ModeledMethod)
  : gmap string ModeledMethod :=
  let existingModeledMethods := loadDataExtensionYaml data in
  spread existingModeledMethods oldModeledMethods.

(** The updater passed to [setModeledMethods] on [addModeledMethods]. *)
Definition onAddModeledMethods (new : gmap string ModeledMethod)
    (oldModeledMethods : gmap string ModeledMethod)
  : gmap string ModeledMethod :=
  let filteredOldModeledMethods :=
    filter (fun kv => type kv.2 <> "none") oldModeledMethods in
  spread new filteredOldModeledMethods.

(** The [message] listener. An event of a foreign origin is logged and
    changes nothing. *)
Definition listener (evt : MessageEvent) (st : State) : State :=
  if String.eqb (origin evt) window_origin then
    match data evt with
    | setExternalApiRepoResults r =>
        {| results := Some r;
           modeledMethods := modeledMethods st;
           progress := progress st |}
    | showProgress p =>
        {| results := results st;
           modeledMethods := modeledMethods st;
           progress := p |}
    | setExistingYamlData d =>
        {| results := results st;
           modeledMethods := onExistingYamlData d (modeledMethods st);
           progress := progress st |}
    | addModeledMethods new =>
        {| results := results st;
           modeledMethods := onAddModeledMethods new (modeledMethods st);
           progress := progress st |}
    end
  else st.

(** *** The [methods] memo *)

(** [new Map<string, ExternalApiUsage>()]: a map that remembers the
    order in which its keys were first set. *)
Definition JsMap : Type := list (string * ExternalApiUsage).

Fixpoint map_has (k : string) (m : JsMap) : bool :=
  match m with
  | [] => false
  | (k', _) :: m' => String.eqb k' k || map_has k m'
  end.

Fixpoint map_get (k : string) (m : JsMap) : option ExternalApiUsage :=
  match m with
  | [] => None
  | (k', v) :: m' => if String.eqb k' k then Some v else map_get k m'
  end.

(** [m.set(k, v)]: a known key keeps its place, a new one goes last. *)
Fixpoint map_set (k : string) (v : ExternalApiUsage) (m : JsMap) : JsMap :=
  match m with
  | [] => [(k, v)]
  | (k', v') :: m' =>
      if String.eqb k' k then (k', v) :: m'
      else (k', v') :: map_set k v m'
  end.

(** [Array.from(m.values())] *)
Definition map_values (m : JsMap) : list ExternalApiUsage := m.*2.

(** [method.usages.push(usage)]: the array of the record grows by one. *)
Definition push (usage : Call) (method : ExternalApiUsage)
  : ExternalApiUsage :=
  {| externalApiInfo := externalApiInfo method;
     packageName := packageName method;
     typeName := typeName method;
     methodName := methodName method;
     methodParameters := methodParameters method;
     supported := supported method;
     usages := usages method ++ [usage] |}.

(** The map after [push] on the record it holds under [k]: the record
    that [get] hands out is the one the map holds, not a copy, so the
    map sees the new call. *)
Fixpoint push_usage (k : string) (usage : Call) (m : JsMap) : JsMap :=
  match m with
  | [] => []
  | (k', v) :: m' =>
      if String.eqb k' k then (k', push usage v) :: m'
      else (k', v) :: push_usage k usage m'
  end.

(** The four pieces of a signature. [split] always has a first piece;
    the second is [undefined] when there is no [#], and reading
    [substring] off it throws. *)
Definition parseSignature (externalApiInfo : string)
  : Js.Exception + (string * string * string * string) :=
  match Js.split "#" externalApiInfo with
  | [] => inl (Js.TypeError "packageWithType is undefined")
  | packageWithType :: rest =>
      let packageName :=
        Js.substring packageWithType 0 (Js.lastIndexOf "." packageWithType) in
      let typeName :=
        Js.substring_from packageWithType
          (Js.lastIndexOf "." packageWithType + 1) in
      match head rest with
      | None => inl (Js.TypeError "methodDeclaration is undefined")
      | Some methodDeclaration =>
          let methodName :=
            Js.substring methodDeclaration 0
              (Js.indexOf "(" methodDeclaration) in
          let methodParameters :=
            Js.substring_from methodDeclaration
              (Js.indexOf "(" methodDeclaration) in
          inr (packageName, typeName, methodName, methodParameters)
      end
  end.

(** The body of the [forEach] callback. [get(...)!] is an assertion of
    the type checker only: on [undefined], reading [usages] throws. *)
Definition visit (methodsByApiName : JsMap) (tuple : UsageTuple)
  : Js.Exception + JsMap :=
  let '(externalApiInfo, supported, usage) := tuple in
  match parseSignature externalApiInfo with
  | inl e => inl e
  | inr (packageName, typeName, methodName, methodParameters) =>
      let m :=
        if map_has externalApiInfo methodsByApiName then methodsByApiName
        else map_set externalApiInfo
               {| externalApiInfo := externalApiInfo;
                  packageName := packageName;
                  typeName := typeName;
                  methodName := methodName;
                  methodParameters := methodParameters;
                  supported := supported;
                  usages := [] |} methodsByApiName in
      match map_get externalApiInfo m with
      | None => inl (Js.TypeError "method is undefined")
      | Some method => inr (push_usage externalApiInfo usage m)
      end
  end.

(** [tuples.forEach(...)]: the first throw ends the loop. *)
Fixpoint forEach (ts : list UsageTuple) (methodsByApiName : JsMap)
  : Js.Exception + JsMap :=
  match ts with
  | [] => inr methodsByApiName
  | t :: ts' =>
      match visit methodsByApiName t with
      | inl e => inl e
      | inr m => forEach ts' m
      end
  end.

(** Sort by number of usages descending. *)
Definition byUsagesDescending (a b : ExternalApiUsage) : Z :=
  Z.of_nat (length (usages b)) - Z.of_nat (length (usages a)).

Definition methods (results : option (DecodedBqrsChunk UsageTuple))
  : Js.Exception + list ExternalApiUsage :=
  match results with
  | None => inr (Js.sort byUsagesDescending (map_values []))
  | Some chunk =>
      match forEach (tuples chunk) [] with
      | inl e => inl e
      | inr methodsByApiName =>
          inr (Js.sort byUsagesDescending (map_values methodsByApiName))
      end
  end.

(** *** The percentages and the part of the view that shows them *)

Definition supportedPercentage (methods : list ExternalApiUsage)
  : Js.Number :=
  Js.times
    (Js.div_lengths (length (List.filter supported methods))
                    (length methods)) 100.

Definition unsupportedPercentage (methods : list ExternalApiUsage)
  : Js.Number :=
  Js.times
    (Js.div_lengths
       (length (List.filter (fun m => negb (supported m)) methods))
       (length methods)) 100.

(** [{methods.length > 0 && (...)}]: the two figures of the support
    stats, rendered only for a non-empty list. *)
Definition supportStats (methods : list ExternalApiUsage)
  : option (Js.Number * Js.Number) :=
  if (0 <? Z.of_nat (length methods))%Z
  then Some (supportedPercentage methods, unsupportedPercentage methods)
  else None.

(** *** The grouping in the specification's words

    What the memo is said to compute, written from the tuples alone:
    the signatures in the order in which they are first met, and for
    each the flag of its first tuple and the calls of all its tuples
    in the order of the tuples. *)

Definition signatureOf (t : UsageTuple) : string := t.1.1.
Definition flagOf (t : UsageTuple) : bool := t.1.2.
Definition callOf (t : UsageTuple) : Call := t.2.

Definition occurrences (k : string) (ts : list UsageTuple)
  : list UsageTuple :=
  List.filter (fun t => String.eqb (signatureOf t) k) ts.

Definition callsOf (k : string) (ts : list UsageTuple) : list Call :=
  map callOf (occurrences k ts).

Definition firstFlag (k : string) (ts : list UsageTuple) : option bool :=
  flagOf <$> head (occurrences k ts).

Fixpoint firstSeen (ks : list string) : list string :=
  match ks with
  | [] => []
  | k :: ks' =>
      k :: List.filter (fun k' => negb (String.eqb k' k)) (firstSeen ks')
  end.

Definition recordOf (ts : list UsageTuple) (k : string)
  : ExternalApiUsage :=
  let '(p, t, m, ps) :=
    match parseSignature k with
    | inr parts => parts
    | inl _ => ("", "", "", "")
    end in
  {| externalApiInfo := k;
     packageName := p;
     typeName := t;
     methodName := m;
     methodParameters := ps;
     supported := default false (firstFlag k ts);
     usages := callsOf k ts |}.

Definition grouped (ts : list UsageTuple) : list ExternalApiUsage :=
  map (recordOf ts) (firstSeen (map signatureOf ts)).

Definition usageCount (m : ExternalApiUsage) : nat := length (usages m).

(** The map with the keys [ks] in this order, each holding [f] of it. *)
Definition held (f : string -> ExternalApiUsage) (ks : list string)
  : JsMap :=
  map (fun k => (k, f k)) ks.

Definition hasHash (t : UsageTuple) : Prop :=
  Js.includes "#" (signatureOf t) = true.

End ExternalApi.

(** ** The legacy query runner

    [run-queries.ts], [legacyRunner.ts] and the message declarations are
    not among the sources; [run-queries.test.ts], which drives them
    against mocks, is. *)

Record QueryMetadata : Type := { qkind : option string }.

(** Modelled from the spec: [canHaveInterpretedResults] lives in
    legacy-query-server/run-queries.ts, which is missing. The three
    conditions are those of the layout manager's contract (a metadata
    file, a defined kind, graphs only under canary); the fourth case of
    the test
    "should check if interpreted results can be created" adds that the
    kind "table" is never interpreted. *)
Definition canHaveInterpretedResults (metadata : option QueryMetadata)
    (databaseHasMetadataFile : bool) (canary : bool) : bool :=
  if negb databaseHasMetadataFile then false
  else match metadata ≫= qkind with
       | None => false
       | Some k =>
           if String.eqb k "graph" then canary
           else negb (String.eqb k "table")
       end.

(** The contract as the specification words it: a metadata file, a
    defined kind, and not a graph unless canary is set. *)
Definition canHaveInterpretedResults_spec (metadata : option QueryMetadata)
    (databaseHasMetadataFile : bool) (canary : bool) : bool :=
  databaseHasMetadataFile
  && match metadata ≫= qkind with
     | None => false
     | Some k => negb (String.eqb k "graph") || canary
     end.

(** The six expectations of the test, in its order: the kind, the
    metadata-file flag, what [isCanary] is mocked to return, and the
    expected answer. *)
Definition interpreted_results_expectations
  : list (option string * bool * bool * bool) :=
  [ (Some "problem", true, false, true);
    (Some "problem", false, false, false);
    (None, true, false, false);
    (Some "table", true, false, false);
    (Some "graph", true, false, false);
    (Some "graph", true, true, true) ].

Definition meets (f : option QueryMetadata -> bool -> bool -> bool)
    (e : option string * bool * bool * bool) : bool :=
  let '(k, file, canary, expected) := e in
  Bool.eqb (f (Some {| qkind := k |}) file canary) expected.

Inductive Severity : Type := ERROR | WARNING.

Record CompilationMessage : Type := {
  cmessage : string;
  severity : Severity;
}.

Definition isError (msg : CompilationMessage) : bool :=
  match severity msg with ERROR => true | WARNING => false end.

Record QlProgram : Type := {
  dbschemePath : string;
  libraryPath : list string;
  queryPath : string;
}.

Record CompilationOptions : Type := {
  computeNoLocationUrls : bool;
  failOnWarnings : bool;
  fastCompilation : bool;
  includeDilInQlo : bool;
  localChecking : bool;
  noComputeGetUrl : bool;
  noComputeToString : bool;
  computeDefaultStrings : bool;
  emitDebugInfo : bool;
}.

(** Modelled from the spec: the target of a compilation is a whole
    query (the [{ query: {} }] of the test) or a reference into a query
    pack; the declaration is in the missing pure/legacy-messages. *)
Inductive CompilationTarget : Type :=
| target_query
| target_reference (path : string).

Record CompileQueryParams : Type := {
  compilationOptions : CompilationOptions;
  timeoutSecs : Z;
  queryToCheck : QlProgram;
  resultPath : string;
  target : CompilationTarget;
}.

Record Dataset : Type := {
  dbDir : string;
  workingSet : string;
}.

Inductive Request : Type :=
| compileQuery (params : CompileQueryParams)
| registerDatabases (databases : list Dataset)
| deregisterDatabases (databases : list Dataset).

(** What the backend answers: the messages of a compilation, or the
    databases now registered. *)
Inductive Response : Type :=
| CheckQueryResult (messages : list CompilationMessage)
| RegistrationResult (databases : list Dataset).

(** [dbItem.contents.datasetUri.fsPath] is all the runner reads of a
    database. *)
Record DatabaseItem : Type := { datasetUri_fsPath : string }.

(** [path.join] of Node in its POSIX form, for two arguments: the
    arguments that are not empty are put together with a separator
    between them, and the result is normalised. *)
Definition slash : ascii := "047"%char.

(** The segments of a path taken in turn, those kept so far in reverse:
    an empty segment and [.] are dropped; [..] takes back the segment
    before it, unless there is none or it is itself [..], in which case
    a relative path keeps the [..] and an absolute one drops it. *)
Fixpoint normalizeSegments (allowAboveRoot : bool)
    (segments kept : list string) : list string :=
  match segments with
  | [] => rev kept
  | segment :: segments' =>
      if String.eqb segment "" || String.eqb segment "." then
        normalizeSegments allowAboveRoot segments' kept
      else if String.eqb segment ".." then
        match kept with
        | last :: kept' =>
            if String.eqb last ".." then
              normalizeSegments allowAboveRoot segments' (".." :: kept)
            else normalizeSegments allowAboveRoot segments' kept'
        | [] =>
            normalizeSegments allowAboveRoot segments'
              (if allowAboveRoot then [".."] else [])
        end
      else normalizeSegments allowAboveRoot segments' (segment :: kept)
  end.

Definition startsWithSlash (path : string) : bool :=
  match path with
  | String c _ => Ascii.eqb c slash
  | EmptyString => false
  end.

Fixpoint endsWithSlash (path : string) : bool :=
  match path with
  | EmptyString => false
  | String c EmptyString => Ascii.eqb c slash
  | String _ path' => endsWithSlash path'
  end.

(** [path.normalize(path)] *)
Definition path_normalize (path : string) : string :=
  match path with
  | EmptyString => "."
  | _ =>
      let isAbsolute := startsWithSlash path in
      let trailingSeparator := endsWithSlash path in
      match Js.join "/"
              (normalizeSegments (negb isAbsolute) (Js.split slash path) [])
      with
      | EmptyString =>
          if isAbsolute then "/"
          else if trailingSeparator then "./" else "."
      | normalized =>
          (if isAbsolute then "/" else EmptyString)
          +:+ normalized
          +:+ (if trailingSeparator then "/" else EmptyString)
      end
  end.

(** [path.join(dir, name)] *)
Definition path_join (dir name : string) : string :=
  match dir, name with
  | EmptyString, EmptyString => "."
  | EmptyString, _ => path_normalize name
  | _, EmptyString => path_normalize dir
  | _, _ => path_normalize (dir +:+ "/" +:+ name)
  end.

Record QueryInProgress : Type := {
  saveDir : string;
  dbItemPath : string;
  databaseHasMetadataFile : bool;
  queryDbscheme : string;
  compilationTarget : CompilationTarget;
  metadata : option QueryMetadata;
}.

Definition compiledQueryPath (info : QueryInProgress) : string :=
  path_join (saveDir info) "compiledQuery.qlo".
Definition resultsPath (info : QueryInProgress) : string :=
  path_join (saveDir info) "results.bqrs".
Definition dilPath (info : QueryInProgress) : string :=
  path_join (saveDir info) "results.dil".
Definition interpretedResultsPath (info : QueryInProgress) : string :=
  path_join (saveDir info) "interpretedResults.sarif".

Section QueryServer.

(** The cancellation token and the progress sink travel with every
    request and are never inspected. *)
Context {CancellationToken ProgressCallback : Type}.

(** What [sendRequest] puts on the channel. *)
Record Outbound : Type := {
  request : Request;
  token : CancellationToken;
  progress_sink : ProgressCallback;
}.

(** The client: its configuration, the capability of the CLI behind
    it, and the answer of the backend to a request given what it was
    sent before (a transport failure is an exception). *)
Record QueryServerClient : Type := {
  config_timeoutSecs : Z;
  supportsDatabaseRegistration : bool;
  backend : list Outbound -> Outbound -> Js.Exception + Response;
}.

(** A computation over the channel: it reads and extends the log of
    requests sent so far, and returns or throws. *)
Definition Chan (A : Type) : Type :=
  list Outbound -> (Js.Exception + A) * list Outbound.

Definition ret {A} (a : A) : Chan A := fun log => (inr a, log).

Definition bind {A B} (c : Chan A) (k : A -> Chan B) : Chan B :=
  fun log =>
    match c log with
    | (inl e, log') => (inl e, log')
    | (inr a, log') => k a log'
    end.

Definition sendRequest (qs : QueryServerClient) (r : Request)
    (tk : CancellationToken) (pg : ProgressCallback) : Chan Response :=
  fun log =>
    let out := {| request := r; token := tk; progress_sink := pg |} in
    (backend qs log out, (log ++ [out])%list).

Definition compileParams (qs : QueryServerClient) (info : QueryInProgress)
    (program : QlProgram) : CompileQueryParams :=
  {| compilationOptions :=
       {| computeNoLocationUrls := true;
          failOnWarnings := false;
          fastCompilation := false;
          includeDilInQlo := true;
          localChecking := false;
          noComputeGetUrl := false;
          noComputeToString := false;
          computeDefaultStrings := true;
          emitDebugInfo := true |};
     timeoutSecs := config_timeoutSecs qs;
     queryToCheck := program;
     resultPath := compiledQueryPath info;
     target := compilationTarget info |}.

(** Modelled from the spec: [QueryInProgress.compile] is in the missing
    run-queries.ts. One [compileQuery] request with the token and the
    progress sink; a failed exchange is thrown on. The test "should
    compile" gets [{err, ERROR}] alone out of a response that holds an
    error and a warning: what is returned are the messages of severity
    ERROR. *)
Definition compile (info : QueryInProgress) (qs : QueryServerClient)
    (program : QlProgram) (pg : ProgressCallback) (tk : CancellationToken)
  : Chan (list CompilationMessage) :=
  bind (sendRequest qs (compileQuery (compileParams qs info program)) tk pg)
    (fun compiled =>
       ret (List.filter isError
              (match compiled with
               | CheckQueryResult messages => messages
               | _ => []
               end))).

Definition registration (dbItem : DatabaseItem) : list Dataset :=
  [ {| dbDir := datasetUri_fsPath dbItem; workingSet := "default" |} ].

(** Modelled from the spec: [LegacyQueryRunner.registerDatabase] and
    [deregisterDatabase] are in the missing legacyRunner.ts. Both
    return at once when the CLI cannot register databases, and else
    send one request for the dataset of the database. *)
Definition registerDatabase (qs : QueryServerClient) (pg : ProgressCallback)
    (tk : CancellationToken) (dbItem : DatabaseItem) : Chan unit :=
  if supportsDatabaseRegistration qs then
    bind (sendRequest qs (registerDatabases (registration dbItem)) tk pg)
      (fun _ => ret tt)
  else ret tt.

(** Modelled from the spec: the same capability check and the same
    entry, sent as a [deregisterDatabases] request. *)
Definition deregisterDatabase (qs : QueryServerClient)
    (pg : ProgressCallback) (tk : CancellationToken)
    (dbItem : DatabaseItem) : Chan unit :=
  if supportsDatabaseRegistration qs then
    bind (sendRequest qs (deregisterDatabases (registration dbItem)) tk pg)
      (fun _ => ret tt)
  else ret tt.

End QueryServer.

(** ** CSV export *)

(** A decoded cell. A number that is not an integer is held by the text
    [String(v)] gives for it. *)
Inductive CellValue : Type :=
| VString (s : string)
| VBoolean (b : bool)
| VInteger (z : Z)
| VDecimal (shown : string).

(** [String(v)] *)
Definition stringify (v : CellValue) : string :=
  match v with
  | VString s => s
  | VBoolean true => "true"
  | VBoolean false => "false"
  | VInteger z => pretty z
  | VDecimal shown => shown
  end.

Definition dquote : ascii := "034"%char.
Definition quote : string := String dquote EmptyString.

(** A cell between double quotes, every quote inside it doubled. *)
Definition quoted (v : CellValue) : string :=
  quote +:+ Js.replaceAll dquote (quote +:+ quote) (stringify v) +:+ quote.

Section CsvExport.

(** The name of the result set of a [select] clause
    (contextual/locationFinder). *)
Variable SELECT_QUERY_NAME : string.
Variable pageSize : Z.

(** The two CLI operations the exporter calls: the names of the result
    sets of a results file, and one page of a result set from an
    offset. *)
Record CodeQLCliServer : Type := {
  bqrsInfo : string -> list string;
  bqrsDecode : string -> string -> Z -> Z -> DecodedBqrsChunk (list CellValue);
}.

(** The file system, as far as the exporter writes to it. *)
Definition Files : Type := gmap string string.

(** Modelled from the spec: [exportCsvResults] and the choice of the
    result set are in the missing run-queries.ts. A cell is quoted
    when the kind of its column is "String" and written as it
    stringifies otherwise; reading the kind of a column that the chunk
    does not have throws. *)
Definition csvCell (column : option Column) (v : CellValue)
  : Js.Exception + string :=
  match column with
  | None => inl (Js.TypeError "chunk.columns[i] is undefined")
  | Some c =>
      inr (if String.eqb (kind c) "String" then quoted v else stringify v)
  end.

Fixpoint csvCells (cols : list Column) (i : nat) (tuple : list CellValue)
  : Js.Exception + list string :=
  match tuple with
  | [] => inr []
  | v :: tuple' =>
      match csvCell (cols !! i) v with
      | inl e => inl e
      | inr c =>
          match csvCells cols (S i) tuple' with
          | inl e => inl e
          | inr cs => inr (c :: cs)
          end
      end
  end.

Definition newline : string := String "010"%char EmptyString.

(** Modelled from the spec: one record is the cells joined by commas,
    then a line feed. *)
Definition csvRow (cols : list Column) (tuple : list CellValue)
  : Js.Exception + string :=
  match csvCells cols 0 tuple with
  | inl e => inl e
  | inr cs => inr (Js.join "," cs +:+ newline)
  end.

(** Modelled from the spec: the rows of one chunk are appended to what
    was written so far; on a throw, what had been written stays. *)
Fixpoint writeTuples (cols : list Column) (rows : list (list CellValue))
    (out : string) : option Js.Exception * string :=
  match rows with
  | [] => (None, out)
  | r :: rows' =>
      match csvRow cols r with
      | inl e => (Some e, out)
      | inr line => writeTuples cols rows' (out +:+ line)
      end
  end.

(** Modelled from the spec: the result set to export is none when the
    file has no result set, the [select] one when it is there, else the
    first. *)
Definition chooseResultSet (cli : CodeQLCliServer) (results : string)
  : option string :=
  match bqrsInfo cli results with
  | [] => None
  | first :: rest =>
      if existsb (String.eqb SELECT_QUERY_NAME) (first :: rest)
      then Some SELECT_QUERY_NAME
      else Some first
  end.

(** How the page loop ends. *)
Inductive Paging : Type :=
| Exhausted
| Threw (e : Js.Exception)
| OutOfFuel.

(** Modelled from the spec: page after page is decoded and written
    until a chunk names no next offset (an offset of 0 counts as none).
    [fuel] bounds the number of pages read. *)
Fixpoint decodePages (fuel : nat) (cli : CodeQLCliServer)
    (results resultSet : string) (offset : Z) (out : string)
  : Paging * string :=
  match fuel with
  | O => (OutOfFuel, out)
  | S fuel' =>
      let chunk := bqrsDecode cli results resultSet pageSize offset in
      match writeTuples (columns chunk) (tuples chunk) out with
      | (Some e, out') => (Threw e, out')
      | (None, out') =>
          match next chunk with
          | Some nextOffset =>
              if (nextOffset =? 0)%Z then (Exhausted, out')
              else decodePages fuel' cli results resultSet nextOffset out'
          | None => (Exhausted, out')
          end
      end
  end.

(** Modelled from the spec: [exportCsvResults(cliServer, csvPath)] of
    the missing run-queries.ts. [None] when [fuel] pages were not
    enough; else the outcome (the returned boolean or the exception)
    and the files afterwards. Without a result set [false] is returned
    and nothing is opened for writing. *)
Definition exportCsvResults (fuel : nat) (info : QueryInProgress)
    (cli : CodeQLCliServer) (csvPath : string) (fs : Files)
  : option ((Js.Exception + bool) * Files) :=
  match chooseResultSet cli (resultsPath info) with
  | None => Some (inr false, fs)
  | Some resultSet =>
      match decodePages fuel cli (resultsPath info) resultSet 0 "" with
      | (OutOfFuel, _) => None
      | (Threw e, out) => Some (inl e, <[csvPath := out]> fs)
      | (Exhausted, out) => Some (inr true, <[csvPath := out]> fs)
      end
  end.

End CsvExport.

(** *** The CSV text in the specification's words

    What the export is to leave in the file, written from the chunks
    alone and without the exporter's own helpers: the text of a cell by
    the kind of its column, a row as its cells between commas and a
    line feed after them, the file as the rows of every page in turn. *)

(** A text with every double quote in it written twice. *)
Definition doubled (s : string) : string :=
  string_of_list_ascii
    (flat_map (fun c => if Ascii.eqb c dquote then [dquote; dquote] else [c])
       (list_ascii_of_string s)).

(** The reader of a quoted field after its opening quote: a pair of
    quotes is one quote of the text, a single quote ends the field and
    has to be its last character. *)
Fixpoint readQuotedBody (s : string) : option string :=
  match s with
  | EmptyString => None
  | String c s' =>
      if Ascii.eqb c dquote then
        match s' with
        | EmptyString => Some EmptyString
        | String c' s'' =>
            if Ascii.eqb c' dquote
            then option_map (String dquote) (readQuotedBody s'')
            else None
        end
      else option_map (String c) (readQuotedBody s')
  end.

(** The text a quoted field stands for, when it is one. *)
Definition readQuoted (s : string) : option string :=
  match s with
  | EmptyString => None
  | String c s' => if Ascii.eqb c dquote then readQuotedBody s' else None
  end.

(** The character of a decimal digit. *)
Definition digit (d : Z) : string :=
  String (ascii_of_nat (48 + Z.to_nat d)) EmptyString.

(** The integers a number holds exactly. *)
Definition safeInteger (z : Z) : Prop := - 2 ^ 53 < z < 2 ^ 53.

Definition cellText (col : Column) (v : CellValue) : string :=
  if String.eqb (kind col) "String"
  then quote +:+ doubled (stringify v) +:+ quote
  else stringify v.

Definition rowText (cols : list Column) (tuple : list CellValue) : string :=
  String.concat "," (zip_with cellText cols tuple) +:+ newline.

Definition chunkText (chunk : DecodedBqrsChunk (list CellValue)) : string :=
  foldr String.append EmptyString
    (map (rowText (columns chunk)) (tuples chunk)).

Definition fileText (chunks : list (DecodedBqrsChunk (list CellValue)))
  : string :=
  foldr String.append EmptyString (map chunkText chunks).

(** A chunk none of whose rows is longer than its list of columns. *)
Definition fitsColumns (chunk : DecodedBqrsChunk (list CellValue)) : Prop :=
  Forall (fun tuple => (length tuple <= length (columns chunk))%nat)
    (tuples chunk).

(** The pages a CLI serves of a result set from an offset on: every
    page but the last names the offset of the next, the last names none
    (or 0). *)
Inductive servesPages (pageSize : Z) (cli : CodeQLCliServer)
    (results resultSet : string)
  : Z -> list (DecodedBqrsChunk (list CellValue)) -> Prop :=
| lastPage (offset : Z) :
    next (bqrsDecode cli results resultSet pageSize offset) = None
    \/ next (bqrsDecode cli results resultSet pageSize offset) = Some 0 ->
    servesPages pageSize cli results resultSet offset
      [bqrsDecode cli results resultSet pageSize offset]
| nextPage (offset nextOffset : Z) chunks :
    next (bqrsDecode cli results resultSet pageSize offset)
    = Some nextOffset ->
    nextOffset <> 0 ->
    servesPages pageSize cli results resultSet nextOffset chunks ->
    servesPages pageSize cli results resultSet offset
      (bqrsDecode cli results resultSet pageSize offset :: chunks).

(** The result set the specification has exported: the [select] one if
    the file has it, else the first. *)
Definition exportedResultSet (SELECT_QUERY_NAME : string)
    (resultSets : list string) : option string :=
  match resultSets with
  | [] => None
  | first :: _ =>
      Some (if bool_decide (SELECT_QUERY_NAME ∈ resultSets)
            then SELECT_QUERY_NAME else first)
  end.

(** ** Sample data

    The values the test file uses, and a few small inputs for the
    component. *)

Module Sample.

Definition sink : ModeledMethod :=
  {| type := "sink"; input := "Argument[0]"; output := ""; mkind := "sql" |}.
Definition source : ModeledMethod :=
  {| type := "source"; input := ""; output := "ReturnValue";
     mkind := "remote" |}.

(** Held locally, and loaded from the extension file, for one
    signature. *)
Definition local : gmap string ModeledMethod :=
  {[ "com.foo.Bar#baz(int,int)" := sink ]}.
Definition persisted : gmap string ModeledMethod :=
  {[ "com.foo.Bar#baz(int,int)" := source ]}.

Definition editing : @State nat :=
  {| results := None;
     modeledMethods := local;
     progress := {| step := 0; maxStep := 0; message := "" |} |}.

Definition existingYaml : @MessageEvent nat (gmap string ModeledMethod) :=
  {| origin := "vscode-webview://editor";
     data := setExistingYamlData persisted |}.

Definition usageChunk : DecodedBqrsChunk (@UsageTuple nat) :=
  {| columns := [];
     tuples := [ ("a.B#m()", true, 1%nat);
                 ("a.C#m()", false, 2%nat);
                 ("a.D#m()", true, 3%nat);
                 ("a.C#m()", true, 4%nat) ];
     next := None |}.

Definition brokenChunk : DecodedBqrsChunk (@UsageTuple nat) :=
  {| columns := [];
     tuples := [ ("a.B#m()", true, 1%nat); ("com.foo.Bar", true, 2%nat) ];
     next := None |}.

(** [createMockQueryInfo()] *)
Definition queryInfo : QueryInProgress :=
  {| saveDir := "save-dir0";
     dbItemPath := "/abc";
     databaseHasMetadataFile := true;
     queryDbscheme := "my-scheme";
     compilationTarget := target_query;
     metadata := Some {| qkind := Some "problem" |} |}.

Definition err : CompilationMessage :=
  {| cmessage := "err"; severity := ERROR |}.
Definition warn : CompilationMessage :=
  {| cmessage := "warn"; severity := WARNING |}.

(** [createMockQueryServerClient]: every request is answered with an
    error and a warning. *)
Definition queryServer (supports : bool)
  : @QueryServerClient string string :=
  {| config_timeoutSecs := 5;
     supportsDatabaseRegistration := supports;
     backend := fun _ _ => inr (CheckQueryResult [err; warn]) |}.

Definition qlProgram : QlProgram :=
  {| dbschemePath := ""; libraryPath := []; queryPath := "" |}.

Definition dbItem : DatabaseItem := {| datasetUri_fsPath := "/dataset-uri" |}.

(** The chunk of the CSV round trip. *)
Definition chunk_ab : DecodedBqrsChunk (list CellValue) :=
  {| columns := [ {| kind := "NotString" |}; {| kind := "String" |} ];
     tuples := [ [VString "a"; VString "b"]; [VString "c"; VString "d"] ];
     next := None |}.

Definition csv_ab : string :=
  "a," +:+ quote +:+ "b" +:+ quote +:+ newline
  +:+ "c," +:+ quote +:+ "d" +:+ quote +:+ newline.

Definition cliServer (resultSets : list string) : CodeQLCliServer :=
  {| bqrsInfo := fun _ => resultSets;
     bqrsDecode := fun _ _ _ _ => chunk_ab |}.

(** The two pages of "should export csv results for result set". *)
Definition page1 : DecodedBqrsChunk (list CellValue) :=
  {| columns := columns chunk_ab; tuples := tuples chunk_ab;
     next := Some 1 |}.
Definition page2 : DecodedBqrsChunk (list CellValue) :=
  {| columns := [ {| kind := "String" |}; {| kind := "NotString" |};
                  {| kind := "StillNotString" |} ];
     tuples := [ [VString "a"; VString "b"; VString "c"] ];
     next := None |}.

Definition pagedCliServer (resultSets : list string) : CodeQLCliServer :=
  {| bqrsInfo := fun _ => resultSets;
     bqrsDecode := fun _ _ _ offset =>
                     if (offset =? 0)%Z then page1 else page2 |}.

Definition csv_pages : string :=
  String.concat quote
    [ "a,"; "b"; newline +:+ "c,"; "d"; newline; "a";
      ",b,c" +:+ newline ].

(** The chunk of "should export csv results with characters that need
    to be escaped". *)
Definition escapesChunk : DecodedBqrsChunk (list CellValue) :=
  {| columns := columns chunk_ab;
     tuples :=
       [ [VString (quote +:+ "a" +:+ quote);
          VString (quote +:+ "b" +:+ quote)];
         [VString "c,xxx"; VString "d,yyy"];
         [VString ("aaa " +:+ quote +:+ " bbb");
          VString ("ccc " +:+ quote +:+ " ddd")];
         [VBoolean true; VBoolean false];
         [VInteger 123; VInteger 456];
         [VDecimal "123.98"; VDecimal "456.99"] ];
     next := None |}.

Definition escapesCliServer : CodeQLCliServer :=
  {| bqrsInfo := fun _ => ["#select"; "hucairz"];
     bqrsDecode := fun _ _ _ _ => escapesChunk |}.

Definition csv_escapes : string :=
  String.concat quote
    [ ""; "a"; ","; ""; ""; "b"; ""; "";
      newline +:+ "c,xxx,"; "d,yyy";
      newline +:+ "aaa "; " bbb,"; "ccc "; ""; " ddd";
      newline +:+ "true,"; "false";
      newline +:+ "123,"; "456";
      newline +:+ "123.98,"; "456.99";
      newline ].

End Sample.

(** ** The ExternalApi component: edits and sessions *)

Section ExternalApiSession.

Context {Call YamlData : Type}.
Variable loadDataExtensionYaml : YamlData -> gmap string ModeledMethod.
Variable window_origin : string.

(** The updater of [onChange]:
    [{ ...oldModeledMethods, [method.externalApiInfo]: model }]. *)
Definition onChange (method : @ExternalApiUsage Call) (model : ModeledMethod)
    (oldModeledMethods : gmap string ModeledMethod)
  : gmap string ModeledMethod :=
  spread oldModeledMethods {[ externalApiInfo method := model ]}.

(** The component after the user changed the model of a row. *)
Definition changed (method : @ExternalApiUsage Call) (model : ModeledMethod)
    (st : @State Call) : @State Call :=
  {| results := results st;
     modeledMethods := onChange method model (modeledMethods st);
     progress := progress st |}.

(** The messages of a session, handled in the order of their arrival. *)
Definition deliver (evts : list (@MessageEvent Call YamlData))
    (st : @State Call) : @State Call :=
  foldl (fun st evt => listener loadDataExtensionYaml window_origin evt st)
    st evts.

(** The events the listener acts on. *)
Definition sameOrigin (evt : @MessageEvent Call YamlData) : bool :=
  String.eqb (origin evt) window_origin.

End ExternalApiSession.

(** [arr.reduce((n, m) => n + m.usages.length, 0)]: the calls a list of
    records holds. *)
Definition totalUsages {Call} (ms : list (@ExternalApiUsage Call)) : nat :=
  sum_list_with usageCount ms.

(** ** The method modeling panel

    [MethodModelingViewProvider]. The provider holds a method and a
    database; it posts messages to its webview, writes to the modeling
    store, and reacts to the messages of the webview and to the events
    of the store. What it does to the outside is kept as a trace. *)

Module MethodModeling.

Section Provider.

(** The method shown, a modeled method in its legacy form, the list of
    modeled methods of one method, a model editor view and a reported
    error: declared elsewhere, passed through here. *)
Context {Method LegacyModeledMethod ModeledMethods View Failure : Type}.
(** [method.signature], for a method and for a legacy modeled method. *)
Variable signature : Method -> string.
Variable legacySignature : LegacyModeledMethod -> string.
(** model-editor/shared/modeled-methods-legacy *)
Variable convertToLegacyModeledMethod :
  ModeledMethods -> option LegacyModeledMethod.
Variable convertFromLegacyModeledMethod :
  LegacyModeledMethod -> ModeledMethods.

(** [databaseItem.databaseUri.toString()] is all that is read of a
    database. *)
Record DatabaseItem : Type := { databaseUri : string }.

(** What [getSelectedMethodDetails] hands out. *)
Record SelectedMethodDetails : Type := {
  selected_method : Method;
  selected_modeledMethods : ModeledMethods;
  selected_isModified : bool;
}.

Inductive ToMethodModelingMessage : Type :=
| To_setMethodModelingPanelViewState (showMultipleModels : bool)
| To_setMethod (method : option Method)
| To_setSelectedMethod (method : Method)
    (modeledMethod : option LegacyModeledMethod) (isModified : bool)
| To_setInModelingMode (inModelingMode : bool)
| To_setModeledMethod (method : LegacyModeledMethod)
| To_setMethodModified (isModified : bool).

Inductive FromMethodModelingMessage : Type :=
| From_viewLoaded
| From_telemetry (action : string)
| From_unhandledError (error : Failure)
| From_setModeledMethod (method : LegacyModeledMethod)
| From_revealInModelEditor (method : Method)
| From_startModeling.

(** The events the provider listens to: five of the modeling store and
    one of the model configuration. *)
Inductive Emitter : Type :=
| ModeledMethodsChangedEvent
| ModifiedMethodsChangedEvent
| SelectedMethodChangedEvent
| DbOpenedEvent
| DbClosedEvent
| DidChangeConfigurationEvent.

(** What the provider does to its collaborators. [push emitter] is
    [this.push(emitter(handler))]: one more handler on the emitter,
    kept until the provider is disposed of. *)
Inductive Effect : Type :=
| postMessage (msg : ToMethodModelingMessage)
| push (emitter : Emitter)
| updateModeledMethods (db : DatabaseItem) (sig : string)
    (methods : ModeledMethods)
| addModifiedMethod (db : DatabaseItem) (sig : string)
| executeCommand (command : string)
| sendUIInteraction (action : string)
| showAndLogExceptionWithTelemetry (error : Failure)
| revealMethod (view : View) (method : Method).

(** What the provider reads of its collaborators when it acts. *)
Record Env : Type := {
  isShowingView : bool;
  webviewView : bool;
  showMultipleModels : bool;
  hasStateForActiveDb : bool;
  getSelectedMethodDetails : option SelectedMethodDetails;
  anyDbsBeingModeled : bool;
  getViews : string -> list View;
  telemetryListener : bool;
}.

(** The two private fields. *)
Record Provider : Type := {
  method : option Method;
  databaseItem : option DatabaseItem;
}.

Definition Outcome : Type := Provider * list Effect.

Definition setViewState (env : Env) (this : Provider) : Outcome :=
  (this,
   [postMessage (To_setMethodModelingPanelViewState (showMultipleModels env))]).

Definition setMethod (env : Env) (db : option DatabaseItem)
    (m : option Method) (this : Provider) : Outcome :=
  ({| method := m; databaseItem := db |},
   if isShowingView env then [postMessage (To_setMethod m)] else []).

Definition setInitialState (env : Env) (this : Provider) : Outcome :=
  (this,
   if hasStateForActiveDb env then
     match getSelectedMethodDetails env with
     | Some selectedMethod =>
         [postMessage
            (To_setSelectedMethod (selected_method selectedMethod)
               (convertToLegacyModeledMethod
                  (selected_modeledMethods selectedMethod))
               (selected_isModified selectedMethod))]
     | None => []
     end ++ [postMessage (To_setInModelingMode true)]
   else []).

(** The five handlers of the store, which are the [on...] functions
    below, in the order in which they are registered. *)
Definition registerToModelingStoreEvents : list Effect :=
  [ push ModeledMethodsChangedEvent;
    push ModifiedMethodsChangedEvent;
    push SelectedMethodChangedEvent;
    push DbOpenedEvent;
    push DbClosedEvent ].

(** The handler of a change of the configuration, which is
    [setViewState]. *)
Definition registerToModelConfigEvents : list Effect :=
  [ push DidChangeConfigurationEvent ].

(** [Promise.all([setViewState(), setInitialState()])]: neither branch
    writes a field; the posts are kept in the order of the calls. Then
    the handlers are registered, once more each time the view loads. *)
Definition onWebViewLoaded (env : Env) (this : Provider) : Outcome :=
  (this,
   ((setViewState env this).2 ++ (setInitialState env this).2)
   ++ registerToModelingStoreEvents ++ registerToModelConfigEvents).

Definition revealInModelEditor (env : Env) (m : Method) (this : Provider)
  : Outcome :=
  match databaseItem this with
  | None => (this, [])
  | Some db =>
      let views := getViews env (databaseUri db) in
      match views with
      | [] => (this, [])
      | _ => (this, map (fun view => revealMethod view m) views)
      end
  end.

Definition onMessage (env : Env) (msg : FromMethodModelingMessage)
    (this : Provider) : Outcome :=
  match msg with
  | From_viewLoaded => onWebViewLoaded env this
  | From_telemetry action =>
      (this, if telemetryListener env then [sendUIInteraction action] else [])
  | From_unhandledError error => (this, [showAndLogExceptionWithTelemetry error])
  | From_setModeledMethod m =>
      match databaseItem this with
      | None => (this, [])
      | Some db =>
          (this,
           [updateModeledMethods db (legacySignature m)
              (convertFromLegacyModeledMethod m);
            addModifiedMethod db (legacySignature m)])
      end
  | From_revealInModelEditor m => revealInModelEditor env m this
  | From_startModeling =>
      (this, [executeCommand "codeQL.openModelEditorFromModelingPanel"])
  end.

(** The events of the modeling store. *)
Record ModeledMethodsChanged : Type := {
  mmc_isActiveDb : bool;
  mmc_modeledMethods : gmap string ModeledMethods;
}.

Record ModifiedMethodsChanged : Type := {
  mfc_isActiveDb : bool;
  mfc_modifiedMethods : gset string;
}.

Record SelectedMethodChanged : Type := {
  smc_databaseItem : DatabaseItem;
  smc_method : Method;
  smc_modeledMethods : ModeledMethods;
  smc_isModified : bool;
}.

(** [e.modeledMethods[this.method?.signature ?? ""]] *)
Definition onModeledMethodsChanged (env : Env) (e : ModeledMethodsChanged)
    (this : Provider) : Outcome :=
  (this,
   if webviewView env && mmc_isActiveDb e then
     match mmc_modeledMethods e !! from_option signature "" (method this) with
     | Some modeledMethods =>
         match convertToLegacyModeledMethod modeledMethods with
         | Some modeledMethod => [postMessage (To_setModeledMethod modeledMethod)]
         | None => []
         end
     | None => []
     end
   else []).

Definition onModifiedMethodsChanged (env : Env) (e : ModifiedMethodsChanged)
    (this : Provider) : Outcome :=
  (this,
   if webviewView env && mfc_isActiveDb e then
     match method this with
     | Some m =>
         [postMessage
            (To_setMethodModified
               (bool_decide (signature m ∈ mfc_modifiedMethods e)))]
     | None => []
     end
   else []).

Definition onSelectedMethodChanged (env : Env) (e : SelectedMethodChanged)
    (this : Provider) : Outcome :=
  if webviewView env then
    ({| method := Some (smc_method e);
        databaseItem := Some (smc_databaseItem e) |},
     [postMessage
        (To_setSelectedMethod (smc_method e)
           (convertToLegacyModeledMethod (smc_modeledMethods e))
           (smc_isModified e))])
  else (this, []).

Definition onDbOpened (env : Env) (this : Provider) : Outcome :=
  (this, [postMessage (To_setInModelingMode true)]).

(** [dbUri === this.databaseItem?.databaseUri.toString()]: without a
    database the right side is [undefined] and the test fails. *)
Definition onDbClosed (env : Env) (dbUri : string) (this : Provider)
  : Outcome :=
  let left :=
    if anyDbsBeingModeled env then []
    else [postMessage (To_setInModelingMode false)] in
  match databaseItem this with
  | Some db =>
      if String.eqb dbUri (databaseUri db) then
        let '(this', posted) := setMethod env None None this in
        (this', left ++ posted)
      else (this, left)
  | None => (this, left)
  end.

(** Everything that can reach the provider: a message of the webview,
    an event of the store or a change of the configuration handed to
    its handler, and the public [setMethod]. *)
Inductive Input : Type :=
| fromView (msg : FromMethodModelingMessage)
| modeledMethodsChanged (e : ModeledMethodsChanged)
| modifiedMethodsChanged (e : ModifiedMethodsChanged)
| selectedMethodChanged (e : SelectedMethodChanged)
| dbOpened
| dbClosed (dbUri : string)
| configurationChanged
| callSetMethod (db : option DatabaseItem) (m : option Method).

Definition step (env : Env) (i : Input) (this : Provider) : Outcome :=
  match i with
  | fromView msg => onMessage env msg this
  | modeledMethodsChanged e => onModeledMethodsChanged env e this
  | modifiedMethodsChanged e => onModifiedMethodsChanged env e this
  | selectedMethodChanged e => onSelectedMethodChanged env e this
  | dbOpened => onDbOpened env this
  | dbClosed dbUri => onDbClosed env dbUri this
  | configurationChanged => setViewState env this
  | callSetMethod db m => setMethod env db m this
  end.

(** A run: each input with what the collaborators look like when it
    arrives; the traces of the steps one after the other. *)
Fixpoint run (inputs : list (Env * Input)) (this : Provider) : Outcome :=
  match inputs with
  | [] => (this, [])
  | (env, i) :: inputs' =>
      let '(this', trace) := step env i this in
      let '(this'', trace') := run inputs' this' in
      (this'', trace ++ trace')
  end.

(** The emitter an input comes from; a message of the webview and a
    call of [setMethod] reach the provider without one. *)
Definition emitterOf (i : Input) : option Emitter :=
  match i with
  | fromView _ => None
  | modeledMethodsChanged _ => Some ModeledMethodsChangedEvent
  | modifiedMethodsChanged _ => Some ModifiedMethodsChangedEvent
  | selectedMethodChanged _ => Some SelectedMethodChangedEvent
  | dbOpened => Some DbOpenedEvent
  | dbClosed _ => Some DbClosedEvent
  | configurationChanged => Some DidChangeConfigurationEvent
  | callSetMethod _ _ => None
  end.

Definition sameEmitter (a b : Emitter) : bool :=
  match a, b with
  | ModeledMethodsChangedEvent, ModeledMethodsChangedEvent
  | ModifiedMethodsChangedEvent, ModifiedMethodsChangedEvent
  | SelectedMethodChangedEvent, SelectedMethodChangedEvent
  | DbOpenedEvent, DbOpenedEvent
  | DbClosedEvent, DbClosedEvent
  | DidChangeConfigurationEvent, DidChangeConfigurationEvent => true
  | _, _ => false
  end.

(** The handlers a trace registers. *)
Definition registrations (trace : list Effect) : list Emitter :=
  omap (fun eff => match eff with push emitter => Some emitter | _ => None end)
    trace.

(** How often the provider handles what happens: an event of an emitter
    once for each handler registered on it so far, anything else
    once. *)
Definition handlers (registered : list Emitter) (i : Input) : nat :=
  match emitterOf i with
  | Some emitter => length (List.filter (sameEmitter emitter) registered)
  | None => 1
  end.

(** A session: what happens around the provider, one thing after the
    other, with the handlers registered so far. An emitter calls its
    handlers in turn; a handler registered while something is handled
    is there for what happens next. *)
Fixpoint session (events : list (Env * Input)) (registered : list Emitter)
    (this : Provider) : Provider * list Emitter * list Effect :=
  match events with
  | [] => (this, registered, [])
  | (env, i) :: events' =>
      let '(this', trace) :=
        run (replicate (handlers registered i) (env, i)) this in
      let '(this'', registered'', trace') :=
        session events' (registered ++ registrations trace) this' in
      (this'', registered'', trace ++ trace')
  end.

(** A run in which only the webview speaks. *)
Definition asInputs (msgs : list (Env * FromMethodModelingMessage))
  : list (Env * Input) :=
  map (fun '(env, msg) => (env, fromView msg)) msgs.

Definition isStoreWrite (eff : Effect) : bool :=
  match eff with
  | updateModeledMethods _ _ _ | addModifiedMethod _ _ => true
  | _ => false
  end.

Definition isReveal (eff : Effect) : bool :=
  match eff with
  | revealMethod _ _ => true
  | _ => false
  end.

(** A trace in which every write of modeled methods is at once followed
    by the mark of the same method of the same database as modified,
    and no mark stands alone. *)
Fixpoint paired (trace : list Effect) : Prop :=
  match trace with
  | [] => True
  | updateModeledMethods db sig _ :: addModifiedMethod db' sig' :: trace' =>
      db = db' /\ sig = sig' /\ paired trace'
  | updateModeledMethods _ _ _ :: _ => False
  | addModifiedMethod _ _ :: _ => False
  | _ :: trace' => paired trace'
  end.

End Provider.

End MethodModeling.

(** ** Opening the data extensions editor

    [DataExtensionsEditorModule]: the command
    [codeQL.openDataExtensionsEditor], with how it completes and what
    it shows, asks and opens kept as a trace. *)

Module DataExtensionsEditor.

Definition SUPPORTED_LANGUAGES : list string := ["java"; "csharp"].

(** [languages.includes(language)] *)
Definition includes (languages : list string) (language : string) : bool :=
  existsb (String.eqb language) languages.

Record DatabaseItem : Type := { language : string }.

Record SyntheticQueryPack : Type := {
  name : string;
  version : string;
  dependencies : list (string * string);
}.

Section Command.

(** The model file an extension pack is picked for. *)
Context {ModelFile : Type}.
(** [CliVersionConstraint.CLI_VERSION_WITH_....format()] *)
Variable CLI_VERSION_WITH_QLPACKS_KIND : string.
Variable CLI_VERSION_WITH_RESOLVE_EXTENSIONS : string.

Record Env : Type := {
  currentDatabaseItem : option DatabaseItem;
  supportsQlpacksKind : bool;
  supportsResolveExtensions : bool;
  pickExtensionPack : DatabaseItem -> option ModelFile;
}.

Inductive Effect : Type :=
| showAndLogErrorMessage (message : string)
| askedForExtensionPack (db : DatabaseItem)
| openView (queryStorageDir queryDir : string) (db : DatabaseItem)
    (modelFile : ModelFile).

(** A step of the command: it returns or throws, and leaves a trace of
    what it did before. *)
Definition Cmd (A : Type) : Type := (Js.Exception + A) * list Effect.

Definition returns {A} (a : A) : Cmd A := (inr a, []).

Definition andThen {A B} (c : Cmd A) (k : A -> Cmd B) : Cmd B :=
  match c with
  | (inl e, trace) => (inl e, trace)
  | (inr a, trace) => let '(r, trace') := k a in (r, trace ++ trace')
  end.

Definition effect (eff : Effect) : Cmd unit := (inr tt, [eff]).

(** A name the file neither imports nor declares: evaluating it throws
    a [ReferenceError]. So it is with [dir], [writeFile], [query],
    [queryName], [databaseItem] and [dumpYaml], which the body of the
    command uses; the imports of the file are [ensureDir] of fs-extra
    and [join] of path, besides its own modules. *)
Definition unbound {A} (name : string) : Cmd A :=
  (inl (Js.ReferenceError (name +:+ " is not defined")), []).

(** [for (const entry of entries) { await f(entry) }] *)
Fixpoint forEach {A} (entries : list A) (f : A -> Cmd unit) : Cmd unit :=
  match entries with
  | [] => returns tt
  | entry :: entries' => andThen (f entry) (fun _ => forEach entries' f)
  end.

(** The field the constructor sets. *)
Definition queryStorageDir (baseQueryStorageDir : string) : string :=
  path_join baseQueryStorageDir "data-extensions-editor-results".

(** The command once a pack is picked (lines 102 to 143): the query
    directory of [dir], the query and its dependencies written into it,
    the pack file written beside them, the view opened. The callee of
    a call is evaluated before its arguments, so each [writeFile(...)]
    fails on the name [writeFile]. *)
Definition writeQueryPackAndOpen (storage : string) (db : DatabaseItem)
    (modelFile : ModelFile) : Cmd unit :=
  andThen (unbound "dir") (fun queryDir : string =>
  let queryFile := path_join queryDir "FetchExternalApis.ql" in
  andThen (unbound "writeFile") (fun _ : unit =>
  andThen (unbound "query")
    (fun query_dependencies : option (list (string * string)) =>
  andThen
    match query_dependencies with
    | Some entries =>
        forEach entries
          (fun '(filename, contents) =>
             let dependencyFile := path_join queryDir filename in
             unbound "writeFile")
    | None => returns tt
    end (fun _ : unit =>
  andThen (unbound "databaseItem") (fun databaseItem_language : string =>
  let syntheticQueryPack :=
    {| name := "codeql/external-api-usage";
       version := "0.0.0";
       dependencies :=
         [ ("codeql/" +:+ databaseItem_language +:+ "-all", "*") ] |} in
  let qlpackFile := path_join queryDir "codeql-pack.yml" in
  andThen (unbound "writeFile") (fun _ : unit =>
  effect (openView storage queryDir db modelFile))))))).

(** The command, check after check; each [return] ends it. The
    callback handed to [withProgress] is run and its promise is the
    promise of the command. *)
Definition openDataExtensionsEditor (baseQueryStorageDir : string)
    (env : Env) : Cmd unit :=
  match currentDatabaseItem env with
  | None => effect (showAndLogErrorMessage "No database selected")
  | Some db =>
      if negb (includes SUPPORTED_LANGUAGES (language db)) then
        effect
          (showAndLogErrorMessage
             ("The data extensions editor is not supported for "
              +:+ language db +:+ " databases."))
      else if negb (supportsQlpacksKind env) then
        effect
          (showAndLogErrorMessage
             ("This feature requires CodeQL CLI version "
              +:+ CLI_VERSION_WITH_QLPACKS_KIND +:+ " or later."))
      else if negb (supportsResolveExtensions env) then
        effect
          (showAndLogErrorMessage
             ("This feature requires CodeQL CLI version "
              +:+ CLI_VERSION_WITH_RESOLVE_EXTENSIONS +:+ " or later."))
      else
        andThen (effect (askedForExtensionPack db)) (fun _ =>
          match pickExtensionPack env db with
          | None => returns tt
          | Some modelFile =>
              writeQueryPackAndOpen (queryStorageDir baseQueryStorageDir)
                db modelFile
          end)
  end.


End Command.

End DataExtensionsEditor.

(** ** Sample sessions of the panel and of the command *)

Module Scenario.

(** A panel whose methods, modeled methods, views and errors are all
    named by strings; a list of modeled methods converts to its first. *)
Definition env : @MethodModeling.Env string (list string) string :=
  {| MethodModeling.isShowingView := true;
     MethodModeling.webviewView := true;
     MethodModeling.showMultipleModels := false;
     MethodModeling.hasStateForActiveDb := true;
     MethodModeling.getSelectedMethodDetails := None;
     MethodModeling.anyDbsBeingModeled := false;
     MethodModeling.getViews := fun uri => ["editor of " +:+ uri];
     MethodModeling.telemetryListener := true |}.

Definition db : MethodModeling.DatabaseItem :=
  {| MethodModeling.databaseUri := "file:///db" |}.

Definition holding : @MethodModeling.Provider string :=
  {| MethodModeling.method := Some "com.foo.Bar#baz(int,int)";
     MethodModeling.databaseItem := Some db |}.

Definition afterwards
  : list (@MethodModeling.Env string (list string) string
          * @MethodModeling.FromMethodModelingMessage string string string) :=
  [ (env, MethodModeling.From_setModeledMethod "com.foo.Bar#baz(int,int)");
    (env, MethodModeling.From_revealInModelEditor "com.foo.Bar#baz(int,int)");
    (env, MethodModeling.From_startModeling) ].

(** A Java database with both capabilities, and a pack that is picked. *)
Definition java : DataExtensionsEditor.DatabaseItem :=
  {| DataExtensionsEditor.language := "java" |}.

Definition ready : @DataExtensionsEditor.Env string :=
  {| DataExtensionsEditor.currentDatabaseItem := Some java;
     DataExtensionsEditor.supportsQlpacksKind := true;
     DataExtensionsEditor.supportsResolveExtensions := true;
     DataExtensionsEditor.pickExtensionPack := fun _ => Some "models.yml" |}.

(** The same when the user picks no pack. *)
Definition undecided : @DataExtensionsEditor.Env string :=
  {| DataExtensionsEditor.currentDatabaseItem := Some java;
     DataExtensionsEditor.supportsQlpacksKind := true;
     DataExtensionsEditor.supportsResolveExtensions := true;
     DataExtensionsEditor.pickExtensionPack := fun _ => None |}.

(** The same with a CLI that cannot resolve extensions. *)
Definition oldCli : @DataExtensionsEditor.Env string :=
  {| DataExtensionsEditor.currentDatabaseItem := Some java;
     DataExtensionsEditor.supportsQlpacksKind := true;
     DataExtensionsEditor.supportsResolveExtensions := false;
     DataExtensionsEditor.pickExtensionPack := fun _ => Some "models.yml" |}.

End Scenario.

(** * Properties *)

(** ** JavaScript strings *)

Section JsStrings.

Lemma append_assoc (a b c : string) : (a +:+ b) +:+ c = a +:+ b +:+ c.
Proof.
  induction a as [|x a IH]; [done|].
  change (String x ((a +:+ b) +:+ c) = String x (a +:+ b +:+ c)).
  by rewrite IH.
Qed.

Lemma includes_app c a b :
  Js.includes c (a +:+ b) = Js.includes c a || Js.includes c b.
Proof.
  induction a as [|x a IH]; simpl; [done|].
  rewrite IH. by rewrite orb_assoc.
Qed.

Lemma append_nil_r (s : string) : s +:+ "" = s.
Proof. induction s as [|c s IH]; [done|]. change (String c (s +:+ "") = String c s). by rewrite IH. Qed.

Lemma len_app a b : Js.len (a +:+ b) = Js.len a + Js.len b.
Proof.
  unfold Js.len. induction a as [|x a IH]; simpl String.length; [done|].
  simpl in IH. lia.
Qed.

Lemma len_nonneg s : 0 <= Js.len s.
Proof. unfold Js.len. lia. Qed.

Lemma indexOf_from_absent c s i :
  Js.includes c s = false -> Js.indexOf_from c s i = -1.
Proof.
  revert i. induction s as [|x s IH]; intros i H; simpl in *; [done|].
  apply orb_false_iff in H as [Hx Hs]. rewrite Hx. by apply IH.
Qed.

Lemma indexOf_from_first c a b i :
  Js.includes c a = false ->
  Js.indexOf_from c (a +:+ String c b) i = i + Js.len a.
Proof.
  revert i. induction a as [|x a IH]; intros i H; simpl in *.
  - rewrite Ascii.eqb_refl. unfold Js.len. simpl. lia.
  - apply orb_false_iff in H as [Hx Ha]. rewrite Hx, IH by done.
    unfold Js.len. simpl String.length. lia.
Qed.

Lemma lastIndexOf_from_absent c s i found :
  Js.includes c s = false -> Js.lastIndexOf_from c s i found = found.
Proof.
  revert i found. induction s as [|x s IH]; intros i found H; simpl in *.
  - done.
  - apply orb_false_iff in H as [Hx Hs]. rewrite Hx. by apply IH.
Qed.

Lemma lastIndexOf_from_last c a b i found :
  Js.includes c b = false ->
  Js.lastIndexOf_from c (a +:+ String c b) i found = i + Js.len a.
Proof.
  revert i found. induction a as [|x a IH]; intros i found H; simpl.
  - rewrite Ascii.eqb_refl, lastIndexOf_from_absent by done.
    unfold Js.len. simpl. lia.
  - rewrite IH by done. unfold Js.len. simpl String.length. lia.
Qed.

Lemma split_absent c s : Js.includes c s = false -> Js.split c s = [s].
Proof.
  induction s as [|x s IH]; intros H; simpl in *; [done|].
  apply orb_false_iff in H as [Hx Hs]. by rewrite Hx, IH.
Qed.

Lemma split_first c a b :
  Js.includes c a = false ->
  Js.split c (a +:+ String c b) = a :: Js.split c b.
Proof.
  induction a as [|x a IH]; intros H; simpl in *.
  - by rewrite Ascii.eqb_refl.
  - apply orb_false_iff in H as [Hx Ha]. by rewrite Hx, IH.
Qed.

Lemma split_present c s :
  Js.includes c s = true ->
  exists a b, Js.split c s = a :: b :: drop 2 (Js.split c s).
Proof.
  induction s as [|x s IH]; intros H; simpl in *; [done|].
  destruct (Ascii.eqb x c) eqn:Hx.
  - destruct (Js.split c s) as [|p ps] eqn:Hs.
    + destruct s; simpl in Hs; [done|].
      destruct (Ascii.eqb _ _); [done|]. by destruct (Js.split c s).
    + by exists EmptyString, p.
  - destruct (IH H) as (a & b & ->). by exists (String x a), b.
Qed.

Lemma split_pieces_exclude c sep s :
  Js.includes c s = false ->
  Forall (fun p => Js.includes c p = false) (Js.split sep s).
Proof.
  induction s as [|x s IH]; intros H; simpl in *.
  - by constructor.
  - apply orb_false_iff in H as [Hx Hs]. specialize (IH Hs).
    destruct (Ascii.eqb x sep); [by constructor|].
    destruct (Js.split sep s) as [|p ps].
    + repeat constructor. simpl. by rewrite Hx.
    + apply Forall_cons in IH as [Hp Hps].
      constructor; [|done]. simpl. by rewrite Hx, Hp.
Qed.

Lemma prim_substring_all s : String.substring 0 (String.length s) s = s.
Proof. induction s as [|x s IH]; simpl; [done|]. by rewrite IH. Qed.

Lemma prim_substring_prefix a b :
  String.substring 0 (String.length a) (a +:+ b) = a.
Proof.
  induction a as [|x a IH]; simpl; [by destruct b|]. by rewrite IH.
Qed.

Lemma prim_substring_suffix a b :
  String.substring (String.length a) (String.length b) (a +:+ b) = b.
Proof.
  induction a as [|x a IH]; simpl; [apply prim_substring_all|]. done.
Qed.

Lemma substring_in_range s i j :
  0 <= i <= j -> j <= Js.len s ->
  Js.substring s i j = String.substring (Z.to_nat i) (Z.to_nat (j - i)) s.
Proof.
  intros Hi Hj. unfold Js.substring, Js.clamp. cbv zeta. f_equal; lia.
Qed.

Lemma substring_prefix a b : Js.substring (a +:+ b) 0 (Js.len a) = a.
Proof.
  pose proof (len_nonneg a). pose proof (len_nonneg b).
  rewrite substring_in_range by (rewrite ?len_app; lia).
  unfold Js.len. rewrite Z.sub_0_r, Nat2Z.id. apply prim_substring_prefix.
Qed.

Lemma substring_from_suffix a b :
  Js.substring_from (a +:+ b) (Js.len a) = b.
Proof.
  pose proof (len_nonneg a). pose proof (len_nonneg b).
  unfold Js.substring_from.
  rewrite substring_in_range by (rewrite ?len_app; lia).
  rewrite len_app. unfold Js.len.
  replace (_ + _ - _) with (Z.of_nat (String.length b)) by lia.
  rewrite !Nat2Z.id. apply prim_substring_suffix.
Qed.

(** After a search that found nothing: [substring(0, -1)] is empty and
    [substring(-1)] is the whole string. *)
Lemma substring_to_minus_one s : Js.substring s 0 (-1) = "".
Proof.
  pose proof (len_nonneg s). unfold Js.substring, Js.clamp. cbv zeta.
  match goal with
  | |- String.substring ?n ?m _ = _ =>
      replace n with 0%nat by lia; replace m with 0%nat by lia
  end.
  by destruct s.
Qed.

Lemma substring_from_zero s : Js.substring_from s 0 = s.
Proof.
  pose proof (len_nonneg s). unfold Js.substring_from.
  rewrite substring_in_range by lia.
  unfold Js.len. rewrite Z.sub_0_r, Nat2Z.id. apply prim_substring_all.
Qed.

Lemma substring_from_minus_one s : Js.substring_from s (-1) = s.
Proof.
  rewrite <- (substring_from_zero s) at 2.
  pose proof (len_nonneg s).
  unfold Js.substring_from, Js.substring, Js.clamp. cbv zeta. f_equal; lia.
Qed.

End JsStrings.

Example indexOf_paren : Js.indexOf "(" "baz(int,int)" = 3.
Proof. reflexivity. Qed.

Example lastIndexOf_dot : Js.lastIndexOf "." "com.foo.Bar" = 7.
Proof. reflexivity. Qed.

Example split_hash : Js.split "#" "a.B#m(x)#y" = ["a.B"; "m(x)"; "y"].
Proof. reflexivity. Qed.

Example substring_swaps : Js.substring "abcdef" 4 (-1) = "abcd".
Proof. reflexivity. Qed.

(** ** Parsing a signature *)

Section Parsing.

Lemma parseSignature_shape pw md :
  Js.includes "#" pw = false -> Js.includes "#" md = false ->
  parseSignature (pw +:+ "#" +:+ md)
  = inr (Js.substring pw 0 (Js.lastIndexOf "." pw),
         Js.substring_from pw (Js.lastIndexOf "." pw + 1),
         Js.substring md 0 (Js.indexOf "(" md),
         Js.substring_from md (Js.indexOf "(" md)).
Proof.
  intros Hpw Hmd. unfold parseSignature.
  change ("#" +:+ md) with (String "#" md).
  by rewrite split_first, (split_absent _ md).
Qed.

Lemma parseSignature_no_hash sig :
  Js.includes "#" sig = false ->
  parseSignature sig = inl (Js.TypeError "methodDeclaration is undefined").
Proof. intros H. unfold parseSignature. by rewrite split_absent. Qed.

Lemma parseSignature_hash sig :
  Js.includes "#" sig = true -> exists parts, parseSignature sig = inr parts.
Proof.
  intros H. unfold parseSignature.
  destruct (split_present _ _ H) as (a & b & ->). simpl. eauto.
Qed.

Lemma parseSignature_total_iff sig :
  Js.includes "#" sig = true <-> exists parts, parseSignature sig = inr parts.
Proof.
  split; [apply parseSignature_hash|].
  intros [parts Hp]. destruct (Js.includes "#" sig) eqn:H; [done|].
  by rewrite parseSignature_no_hash in Hp.
Qed.

End Parsing.

Section WellFormedSignatures.

Lemma packageWithType_parts pkg ty :
  Js.includes "." ty = false ->
  let pw := pkg +:+ "." +:+ ty in
  Js.substring pw 0 (Js.lastIndexOf "." pw) = pkg
  /\ Js.substring_from pw (Js.lastIndexOf "." pw + 1) = ty.
Proof.
  intros Hty pw. subst pw. change ("." +:+ ty) with (String "." ty).
  unfold Js.lastIndexOf. rewrite lastIndexOf_from_last by done.
  rewrite Z.add_0_l. split; [apply substring_prefix|].
  change (String "." ty) with ("." +:+ ty).
  rewrite <- append_assoc.
  replace (Js.len pkg + 1) with (Js.len (pkg +:+ "."))
    by (rewrite len_app; done).
  apply substring_from_suffix.
Qed.

Lemma methodDeclaration_parts m rest :
  Js.includes "(" m = false ->
  let md := m +:+ "(" +:+ rest in
  Js.substring md 0 (Js.indexOf "(" md) = m
  /\ Js.substring_from md (Js.indexOf "(" md) = "(" +:+ rest.
Proof.
  intros Hm md. subst md. change ("(" +:+ rest) with (String "(" rest).
  unfold Js.indexOf. rewrite indexOf_from_first by done.
  rewrite Z.add_0_l. split; [apply substring_prefix|].
  apply substring_from_suffix.
Qed.

(** C8. A signature [package.Type#method(params)] whose only [#] is
    the one shown, whose type holds no dot and whose method name holds
    no parenthesis, is cut at the last dot before the [#] and at the
    first parenthesis after it: the package is what precedes that dot,
    the type what lies between the dot and the [#], the method name
    what lies between the [#] and the parenthesis, and the parameters
    everything from the parenthesis on, the parenthesis included. *)
Theorem parseSignature_well_formed (pkg ty m rest : string) :
  Js.includes "#" pkg = false ->
  Js.includes "#" ty = false ->
  Js.includes "." ty = false ->
  Js.includes "#" m = false ->
  Js.includes "(" m = false ->
  Js.includes "#" rest = false ->
  parseSignature (pkg +:+ "." +:+ ty +:+ "#" +:+ m +:+ "(" +:+ rest)
  = inr (pkg, ty, m, "(" +:+ rest).
Proof.
  intros Hpkg Hty Hdot Hm Hparen Hrest.
  replace (pkg +:+ "." +:+ ty +:+ "#" +:+ m +:+ "(" +:+ rest)
    with ((pkg +:+ "." +:+ ty) +:+ "#" +:+ (m +:+ "(" +:+ rest))
    by (by rewrite !append_assoc).
  rewrite parseSignature_shape.
  - destruct (packageWithType_parts pkg ty Hdot) as [-> ->].
    by destruct (methodDeclaration_parts m rest Hparen) as [-> ->].
  - rewrite !includes_app, Hpkg, Hty. done.
  - rewrite !includes_app, Hm, Hrest. done.
Qed.

Lemma parseSignature_well_formed_witness :
  parseSignature "com.foo.Bar#baz(int,int)"
  = inr ("com.foo", "Bar", "baz", "(int,int)").
Proof.
  exact (parseSignature_well_formed "com.foo" "Bar" "baz" "int,int)"
           eq_refl eq_refl eq_refl eq_refl eq_refl eq_refl).
Defined.

End WellFormedSignatures.

(** ** Sorting by a key, largest first *)

Section SortByKey.

Context {A : Type}.
Variable key : A -> nat.
Variable compareFn : A -> A -> Z.
Hypothesis compareFn_key :
  forall x y, compareFn x y = Z.of_nat (key y) - Z.of_nat (key x).

Lemma sort_insert_perm x l : Permutation (Js.sort_insert compareFn x l) (x :: l).
Proof.
  induction l as [|y l IH]; simpl; [done|].
  destruct (compareFn x y <=? 0)%Z; [done|].
  rewrite IH. apply perm_swap.
Qed.

Lemma sort_perm l : Permutation (Js.sort compareFn l) l.
Proof.
  induction l as [|x l IH]; simpl; [done|].
  rewrite sort_insert_perm. by constructor.
Qed.

Lemma sort_insert_descending x l :
  descending key l -> descending key (Js.sort_insert compareFn x l).
Proof.
  induction 1 as [|y l Hl IH Hy]; simpl.
  - repeat constructor.
  - rewrite compareFn_key. destruct (Z.leb_spec (Z.of_nat (key y) - Z.of_nat (key x)) 0).
    + constructor; [by constructor|].
      constructor; [lia|].
      eapply Forall_impl; [exact Hy|]. simpl. intros b Hb. lia.
    + constructor; [done|].
      eapply Permutation_Forall; [symmetry; apply sort_insert_perm|].
      constructor; [lia|done].
Qed.

Lemma sort_descending l : descending key (Js.sort compareFn l).
Proof.
  induction l as [|x l IH]; simpl; [constructor|].
  by apply sort_insert_descending.
Qed.

Lemma withKey_cons n x l :
  withKey key n (x :: l)
  = if Nat.eqb (key x) n then x :: withKey key n l else withKey key n l.
Proof. done. Qed.

Lemma sort_insert_stable n x l :
  withKey key n (Js.sort_insert compareFn x l) = withKey key n (x :: l).
Proof.
  induction l as [|y l IH]; simpl Js.sort_insert; [done|].
  rewrite compareFn_key.
  destruct (Z.leb_spec (Z.of_nat (key y) - Z.of_nat (key x)) 0); [done|].
  rewrite (withKey_cons n y), IH, !withKey_cons.
  destruct (Nat.eqb_spec (key x) n), (Nat.eqb_spec (key y) n); try done.
  lia.
Qed.

Lemma sort_stable n l :
  withKey key n (Js.sort compareFn l) = withKey key n l.
Proof.
  induction l as [|x l IH]; simpl Js.sort; [done|].
  by rewrite sort_insert_stable, !withKey_cons, IH.
Qed.

Lemma withKey_elem n x l : x ∈ withKey key n l <-> x ∈ l /\ key x = n.
Proof.
  unfold withKey. rewrite !list_elem_of_In, filter_In.
  by rewrite Nat.eqb_eq.
Qed.

Lemma descending_head x l y : descending key (x :: l) -> y ∈ x :: l ->
  (key y <= key x)%nat.
Proof.
  intros Hd Hy. apply StronglySorted_inv in Hd as [_ Hx].
  apply elem_of_cons in Hy as [->|Hy]; [done|].
  by apply (proj1 (Forall_forall _ _) Hx).
Qed.

(** A descending list is determined by its elements of each key, in
    their order: two stable sorts of one array agree. *)
Lemma descending_stable_unique l1 l2 :
  descending key l1 -> descending key l2 ->
  (forall n, withKey key n l1 = withKey key n l2) ->
  l1 = l2.
Proof.
  revert l2. induction l1 as [|x l1 IH]; intros l2 H1 H2 Hsame.
  - destruct l2 as [|y l2]; [done|].
    specialize (Hsame (key y)). rewrite withKey_cons, Nat.eqb_refl in Hsame.
    done.
  - destruct l2 as [|y l2].
    { specialize (Hsame (key x)).
      rewrite withKey_cons, Nat.eqb_refl in Hsame. done. }
    assert (Hxy : key x = key y).
    { apply Nat.le_antisymm.
      - apply (descending_head y l2 x H2).
        apply (withKey_elem (key x)). rewrite <- Hsame.
        rewrite withKey_cons, Nat.eqb_refl. left.
      - apply (descending_head x l1 y H1).
        apply (withKey_elem (key y)). rewrite Hsame.
        rewrite withKey_cons, Nat.eqb_refl. left. }
    assert (Heq : x = y).
    { specialize (Hsame (key x)). rewrite !withKey_cons in Hsame.
      rewrite <- Hxy, Nat.eqb_refl in Hsame. congruence. }
    subst y. f_equal. apply IH.
    + by apply StronglySorted_inv in H1 as [? _].
    + by apply StronglySorted_inv in H2 as [? _].
    + intros n. specialize (Hsame n). rewrite !withKey_cons in Hsame.
      destruct (Nat.eqb (key x) n); congruence.
Qed.

(** Whatever algorithm the engine runs, a stable descending sort
    returns what [Js.sort] returns. *)
Lemma sort_unique l l' :
  descending key l' ->
  (forall n, withKey key n l' = withKey key n l) ->
  l' = Js.sort compareFn l.
Proof.
  intros Hd Hs. apply descending_stable_unique; [done|apply sort_descending|].
  intros n. by rewrite sort_stable.
Qed.

End SortByKey.

(** ** The grouping *)

Section Grouping.

Context {Call : Type}.
Implicit Types (t : @UsageTuple Call) (ts : list (@UsageTuple Call)).
Implicit Types (k : string) (ks : list string).
Implicit Types (f g : string -> @ExternalApiUsage Call).

Lemma elem_of_List_filter {A} (f : A -> bool) (x : A) (l : list A) :
  x ∈ List.filter f l <-> x ∈ l /\ f x = true.
Proof. by rewrite !list_elem_of_In, filter_In. Qed.

Lemma NoDup_List_filter {A} (f : A -> bool) (l : list A) :
  NoDup l -> NoDup (List.filter f l).
Proof.
  induction 1 as [|x l Hx Hl IH]; simpl; [constructor|].
  destruct (f x); [|done]. constructor; [|done].
  rewrite elem_of_List_filter. tauto.
Qed.

Lemma elem_of_firstSeen k ks : k ∈ firstSeen ks <-> k ∈ ks.
Proof.
  induction ks as [|a ks IH]; simpl; [done|].
  rewrite !elem_of_cons, elem_of_List_filter, IH.
  rewrite negb_true_iff, String.eqb_neq.
  destruct (decide (k = a)); tauto.
Qed.

Lemma NoDup_firstSeen ks : NoDup (firstSeen ks).
Proof.
  induction ks as [|a ks IH]; simpl; [constructor|].
  constructor; [|by apply NoDup_List_filter].
  rewrite elem_of_List_filter, negb_true_iff, String.eqb_neq. tauto.
Qed.

Lemma firstSeen_snoc ks k :
  firstSeen (ks ++ [k])
  = if decide (k ∈ ks) then firstSeen ks else firstSeen ks ++ [k].
Proof.
  induction ks as [|a ks IH]; simpl; [done|].
  rewrite IH. destruct (decide (k ∈ ks)) as [Hin|Hin].
  - rewrite decide_True; [done|]. by right.
  - rewrite List.filter_app. simpl.
    destruct (String.eqb_spec k a) as [->|Hne]; simpl.
    + rewrite decide_True by left. by rewrite app_nil_r.
    + rewrite decide_False; [done|].
      rewrite elem_of_cons. tauto.
Qed.

Lemma occurrences_snoc k ts t :
  occurrences k (ts ++ [t])
  = occurrences k ts ++ (if String.eqb (signatureOf t) k then [t] else []).
Proof. unfold occurrences. by rewrite List.filter_app. Qed.

Lemma occurrences_none k ts :
  k ∉ map signatureOf ts -> occurrences k ts = [].
Proof.
  induction ts as [|t ts IH]; simpl; [done|].
  rewrite not_elem_of_cons. intros [Hne Hin].
  destruct (String.eqb_spec (signatureOf t) k); [done|]. by apply IH.
Qed.

Lemma occurrences_some k ts :
  k ∈ map signatureOf ts -> occurrences k ts <> [].
Proof.
  induction ts as [|t ts IH]; simpl.
  - by intros ?%elem_of_nil.
  - rewrite elem_of_cons. intros [->|Hin].
    + by rewrite String.eqb_refl.
    + destruct (String.eqb _ _); [done|]. by apply IH.
Qed.

Lemma recordOf_other ts t k :
  signatureOf t <> k -> recordOf (ts ++ [t]) k = recordOf ts k.
Proof.
  intros Hne. unfold recordOf, firstFlag, callsOf.
  rewrite occurrences_snoc.
  destruct (String.eqb_spec (signatureOf t) k); [done|].
  by rewrite app_nil_r.
Qed.

Lemma recordOf_again ts t :
  signatureOf t ∈ map signatureOf ts ->
  recordOf (ts ++ [t]) (signatureOf t)
  = push (callOf t) (recordOf ts (signatureOf t)).
Proof.
  intros Hin%occurrences_some. unfold recordOf, firstFlag, callsOf.
  rewrite occurrences_snoc, String.eqb_refl.
  destruct (parseSignature _) as [e|[[[p ty] m] ps]];
    destruct (occurrences _ ts) eqn:Ho; try done;
    unfold push; simpl; by rewrite map_app.
Qed.

Lemma recordOf_new ts t p ty m ps :
  signatureOf t ∉ map signatureOf ts ->
  parseSignature (signatureOf t) = inr (p, ty, m, ps) ->
  recordOf (ts ++ [t]) (signatureOf t)
  = push (callOf t)
      {| externalApiInfo := signatureOf t;
         packageName := p;
         typeName := ty;
         methodName := m;
         methodParameters := ps;
         supported := flagOf t;
         usages := [] |}.
Proof.
  intros Hin%occurrences_none Hp. unfold recordOf, firstFlag, callsOf.
  by rewrite occurrences_snoc, String.eqb_refl, Hin, Hp.
Qed.

Lemma map_has_held f k ks : map_has k (held f ks) = bool_decide (k ∈ ks).
Proof.
  induction ks as [|a ks IH]; simpl; [done|].
  rewrite IH. destruct (String.eqb_spec a k) as [->|Hne]; simpl.
  - by rewrite bool_decide_eq_true_2 by left.
  - apply bool_decide_ext. rewrite elem_of_cons.
    split; [tauto|]. by intros [?|?]; [congruence|].
Qed.

Lemma map_set_held f k v ks :
  k ∉ ks -> map_set k v (held f ks) = held f ks ++ [(k, v)].
Proof.
  induction ks as [|a ks IH]; simpl; [done|].
  rewrite not_elem_of_cons. intros [Hne Hin].
  destruct (String.eqb_spec a k); [congruence|]. by rewrite IH.
Qed.

Lemma push_usage_held f g k c ks :
  NoDup ks ->
  (forall k', k' ∈ ks ->
              g k' = if String.eqb k' k then push c (f k') else f k') ->
  push_usage k c (held f ks) = held g ks.
Proof.
  induction 1 as [|a ks Ha Hks IH]; intros Hg; simpl; [done|].
  pose proof (Hg a ltac:(left)) as Hga.
  destruct (String.eqb_spec a k) as [->|Hne]; rewrite Hga; f_equal.
  - apply map_ext_in. intros k' Hin%list_elem_of_In.
    rewrite Hg by (by right).
    destruct (String.eqb_spec k' k); [congruence|done].
  - apply IH. intros k' Hin. apply Hg. by right.
Qed.

Lemma push_usage_last k c v (m : @JsMap Call) :
  map_has k m = false ->
  push_usage k c (m ++ [(k, v)]) = m ++ [(k, push c v)].
Proof.
  induction m as [|[a w] m IH]; simpl.
  - by rewrite String.eqb_refl.
  - intros [Ha Hm]%orb_false_iff. by rewrite Ha, IH.
Qed.

Lemma map_get_has k (m : @JsMap Call) :
  map_has k m = true -> is_Some (map_get k m).
Proof.
  induction m as [|[a w] m IH]; simpl; [done|].
  destruct (String.eqb a k); simpl; [eauto|done].
Qed.

Lemma map_has_set k v (m : @JsMap Call) : map_has k (map_set k v m) = true.
Proof.
  induction m as [|[a w] m IH]; simpl.
  - by rewrite String.eqb_refl.
  - destruct (String.eqb a k) eqn:Ha; simpl; by rewrite Ha.
Qed.

(** Once the signature parses, the callback does not throw: the record
    it asks the map for is there, found or just set. *)
Lemma visit_parsed (m : @JsMap Call) k b c p ty mn ps :
  parseSignature k = inr (p, ty, mn, ps) ->
  visit m (k, b, c)
  = inr (push_usage k c
           (if map_has k m then m
            else map_set k
                   {| externalApiInfo := k;
                      packageName := p;
                      typeName := ty;
                      methodName := mn;
                      methodParameters := ps;
                      supported := b;
                      usages := [] |} m)).
Proof.
  intros Hp. unfold visit. rewrite Hp.
  destruct (map_has k m) eqn:Hhas.
  - by destruct (map_get_has k m Hhas) as [v ->].
  - match goal with
    | |- context [map_get k (map_set k ?v m)] =>
        by destruct (map_get_has k _ (map_has_set k v m)) as [v' ->]
    end.
Qed.

Lemma forEach_snoc ts t (m : @JsMap Call) :
  forEach (ts ++ [t]) m
  = match forEach ts m with
    | inl e => inl e
    | inr m' => visit m' t
    end.
Proof.
  revert m. induction ts as [|a ts IH]; intros m; simpl.
  - by destruct (visit m t).
  - destruct (visit m a); [done|]. apply IH.
Qed.

Lemma visit_held ts t :
  hasHash t ->
  visit (held (recordOf ts) (firstSeen (map signatureOf ts))) t
  = inr (held (recordOf (ts ++ [t]))
           (firstSeen (map signatureOf (ts ++ [t])))).
Proof.
  destruct t as [[k b] c].
  intros [[[[p ty] m] ps] Hp]%parseSignature_hash.
  change (signatureOf (k, b, c)) with k in Hp.
  rewrite (visit_parsed _ _ _ _ _ _ _ _ Hp), map_has_held.
  rewrite map_app. change (map signatureOf [(k, b, c)]) with [k].
  rewrite firstSeen_snoc.
  f_equal. case_bool_decide as Hin.
  - rewrite elem_of_firstSeen in Hin. rewrite decide_True by done.
    apply push_usage_held; [apply NoDup_firstSeen|].
    intros k' _. destruct (String.eqb_spec k' k) as [->|Hne].
    + by apply (recordOf_again ts (k, b, c)).
    + by apply recordOf_other.
  - rewrite elem_of_firstSeen in Hin. rewrite decide_False by done.
    rewrite map_set_held by (by rewrite elem_of_firstSeen).
    rewrite push_usage_last
      by (rewrite map_has_held, bool_decide_eq_false, elem_of_firstSeen; done).
    unfold held. rewrite map_app. simpl. f_equal.
    + apply map_ext_in. intros k' Hk'%list_elem_of_In.
      rewrite elem_of_firstSeen in Hk'.
      f_equal. symmetry. apply recordOf_other.
      intros Heq. change (k = k') in Heq. by subst.
    + do 2 f_equal. symmetry.
      by apply (recordOf_new ts (k, b, c)).
Qed.

(** With a [#] in every signature the loop ends, holding one record
    per signature in the order of first appearance. *)
Lemma forEach_grouped ts :
  Forall hasHash ts ->
  forEach ts []
  = inr (held (recordOf ts) (firstSeen (map signatureOf ts))).
Proof.
  induction ts as [|t ts IH] using rev_ind; intros Hall; [reflexivity|].
  apply Forall_app in Hall as [Hts Ht]. rewrite Forall_singleton in Ht.
  rewrite forEach_snoc, IH by done. exact (visit_held ts t Ht).
Qed.

(** A signature without [#] makes the loop throw. *)
Lemma forEach_throws ts (m : @JsMap Call) :
  Exists (fun t => Js.includes "#" (signatureOf t) = false) ts ->
  exists e, forEach ts m = inl e.
Proof.
  intros Hex. revert m. induction Hex as [t ts Ht|t ts Hex IH]; intros m.
  - simpl. destruct t as [[k b] c]. simpl in *.
    rewrite parseSignature_no_hash by done. eauto.
  - simpl. destruct (visit m t); eauto.
Qed.

Lemma every_hash_or_not ts :
  Forall hasHash ts
  \/ Exists (fun t => Js.includes "#" (signatureOf t) = false) ts.
Proof.
  induction ts as [|t ts [IH|IH]].
  - by left.
  - destruct (Js.includes "#" (signatureOf t)) eqn:Ht.
    + left. by constructor.
    + right. by left.
  - right. by right.
Qed.

Lemma forEach_exception ts (m : @JsMap Call) e :
  forEach ts m = inl e ->
  e = Js.TypeError "methodDeclaration is undefined".
Proof.
  revert m. induction ts as [|[[k b] c] ts IH]; intros m; [done|].
  change (forEach ((k, b, c) :: ts) m)
    with (match visit m (k, b, c) with
          | inl e => inl e
          | inr m' => forEach ts m'
          end).
  destruct (parseSignature k) as [e'|[[[p ty] mn] ps]] eqn:Hp.
  - unfold visit. rewrite Hp. intros [= <-].
    destruct (Js.includes "#" k) eqn:Hk.
    + apply parseSignature_hash in Hk as [parts Hparts]. congruence.
    + rewrite parseSignature_no_hash in Hp by done. congruence.
  - rewrite (visit_parsed _ _ _ _ _ _ _ _ Hp). apply IH.
Qed.

Lemma grouped_held ts :
  map_values (held (recordOf ts) (firstSeen (map signatureOf ts)))
  = grouped ts.
Proof.
  unfold map_values, held, grouped. rewrite <- list_fmap_compose.
  by apply list_fmap_ext.
Qed.

Lemma methods_grouped (chunk : DecodedBqrsChunk (@UsageTuple Call)) :
  Forall hasHash (tuples chunk) ->
  methods (Some chunk)
  = inr (Js.sort byUsagesDescending (grouped (tuples chunk))).
Proof.
  intros Hall. unfold methods.
  by rewrite forEach_grouped, grouped_held by done.
Qed.

Lemma grouped_signatures ts :
  map externalApiInfo (grouped ts) = firstSeen (map signatureOf ts).
Proof.
  unfold grouped. rewrite map_map. rewrite <- (map_id (firstSeen _)) at 2.
  apply map_ext. intros k. unfold recordOf.
  by destruct (parseSignature k) as [|[[[??]?]?]].
Qed.

Lemma recordOf_signature ts k : externalApiInfo (recordOf ts k) = k.
Proof.
  unfold recordOf. by destruct (parseSignature k) as [|[[[??]?]?]].
Qed.

Lemma recordOf_usages ts k : usages (recordOf ts k) = callsOf k ts.
Proof.
  unfold recordOf. by destruct (parseSignature k) as [|[[[??]?]?]].
Qed.

Lemma recordOf_supported ts k :
  k ∈ map signatureOf ts ->
  firstFlag k ts = Some (supported (recordOf ts k)).
Proof.
  intros Hk%occurrences_some. unfold recordOf, firstFlag.
  destruct (parseSignature k) as [|[[[??]?]?]];
    by destruct (occurrences k ts).
Qed.

Lemma grouped_records ts :
  Forall (fun r =>
            firstFlag (externalApiInfo r) ts = Some (supported r)
            /\ usages r = callsOf (externalApiInfo r) ts)
         (grouped ts).
Proof.
  unfold grouped. apply Forall_map, Forall_forall.
  intros k Hk. rewrite elem_of_firstSeen in Hk.
  rewrite recordOf_signature, recordOf_usages.
  split; [by apply recordOf_supported|done].
Qed.

End Grouping.

(** ** The usage aggregation *)

Section Aggregation.

Context {Call : Type}.
Implicit Types (chunk : DecodedBqrsChunk (@UsageTuple Call)).

Lemma byUsagesDescending_key (a b : @ExternalApiUsage Call) :
  byUsagesDescending a b
  = Z.of_nat (usageCount b) - Z.of_nat (usageCount a).
Proof. done. Qed.

(** C6. When every signature holds a [#], the memo returns, and what
    it returns is the grouping of the tuples by raw signature, sorted:
    one record per signature, in the order in which the signatures
    are first met; each record carries the flag of the first tuple of
    its signature and the calls of all of them in the order of the
    tuples; the result is a permutation of these records, descending
    in the number of usages, and the records with equal numbers keep
    their first-encounter order. *)
Theorem methods_groups_then_sorts chunk :
  Forall hasHash (tuples chunk) ->
  exists result,
    methods (Some chunk) = inr result
    /\ map externalApiInfo (grouped (tuples chunk))
       = firstSeen (map signatureOf (tuples chunk))
    /\ NoDup (map externalApiInfo (grouped (tuples chunk)))
    /\ Forall (fun r =>
                 firstFlag (externalApiInfo r) (tuples chunk)
                 = Some (supported r)
                 /\ usages r = callsOf (externalApiInfo r) (tuples chunk))
              result
    /\ Permutation result (grouped (tuples chunk))
    /\ descending usageCount result
    /\ forall n,
         withKey usageCount n result
         = withKey usageCount n (grouped (tuples chunk)).
Proof.
  intros Hall. exists (Js.sort byUsagesDescending (grouped (tuples chunk))).
  pose proof (sort_perm byUsagesDescending (grouped (tuples chunk)))
    as Hperm.
  split; [by apply methods_grouped|].
  split; [apply grouped_signatures|].
  split; [rewrite grouped_signatures; apply NoDup_firstSeen|].
  split; [|split; [done|split]].
  - eapply Permutation_Forall; [symmetry; exact Hperm|].
    apply grouped_records.
  - apply sort_descending, byUsagesDescending_key.
  - intros n. apply sort_stable, byUsagesDescending_key.
Qed.

(** C10. The memo returns a list exactly when every signature holds a
    [#]; a tuple whose signature has none makes it throw the
    [TypeError] of reading [substring] off an undefined method
    declaration. A signature with a [#] but no parenthesis parses to
    an empty method name, one without a dot to an empty package, and
    neither throws. *)
Theorem methods_total_iff_every_hash chunk (sig : string) :
  ((exists result, methods (Some chunk) = inr result)
   <-> Forall hasHash (tuples chunk))
  /\ (Exists (fun t => Js.includes "#" (signatureOf t) = false)
             (tuples chunk) ->
      methods (Some chunk)
      = inl (Js.TypeError "methodDeclaration is undefined"))
  /\ (Js.includes "#" sig = true -> Js.includes "(" sig = false ->
      exists p t ps, parseSignature sig = inr (p, t, "", ps))
  /\ (Js.includes "#" sig = true -> Js.includes "." sig = false ->
      exists t m ps, parseSignature sig = inr ("", t, m, ps)).
Proof.
  assert (Hthrow :
    Exists (fun t => Js.includes "#" (signatureOf t) = false) (tuples chunk)
    -> methods (Some chunk)
       = inl (Js.TypeError "methodDeclaration is undefined")).
  { intros Hex. unfold methods.
    destruct (forEach_throws _ [] Hex) as [e He]. rewrite He.
    by rewrite (forEach_exception _ _ _ He). }
  split; [split|split; [done|split]].
  - intros [result Hres].
    destruct (every_hash_or_not (tuples chunk)) as [|Hno]; [done|].
    by rewrite Hthrow in Hres.
  - intros Hall. rewrite methods_grouped by done. eauto.
  - intros Hh Hp. unfold parseSignature.
    pose proof (split_pieces_exclude "(" "#" sig Hp) as Hpieces.
    destruct (split_present _ _ Hh) as (a & b & Hs).
    rewrite Hs in Hpieces |- *.
    apply Forall_cons in Hpieces as [_ [Hb _]%Forall_cons]. simpl.
    unfold Js.indexOf.
    rewrite indexOf_from_absent, substring_to_minus_one by done. eauto.
  - intros Hh Hd. unfold parseSignature.
    pose proof (split_pieces_exclude "." "#" sig Hd) as Hpieces.
    destruct (split_present _ _ Hh) as (a & b & Hs).
    rewrite Hs in Hpieces |- *.
    apply Forall_cons in Hpieces as [Ha _]. simpl.
    unfold Js.lastIndexOf.
    rewrite lastIndexOf_from_absent, substring_to_minus_one by done. eauto.
Qed.

(** C9, as the component has it. Without tuples the memo returns the
    empty list. The two percentages divide by the length of the list
    with no guard: over the empty list they are [0 / 0 * 100], which
    is NaN, and nothing is thrown; over a non-empty list they are
    finite. The guard is in the view, which shows the two figures
    only when the list is non-empty. *)
Theorem percentages_without_methods
    (cols : list Column) (nxt : option Z)
    (m : @ExternalApiUsage Call) (ms : list (@ExternalApiUsage Call)) :
  methods (Call := Call) None = inr []
  /\ methods (Some {| columns := cols; tuples := []; next := nxt |})
     = inr (@nil (@ExternalApiUsage Call))
  /\ supportedPercentage (@nil (@ExternalApiUsage Call)) = Js.NaN
  /\ unsupportedPercentage (@nil (@ExternalApiUsage Call)) = Js.NaN
  /\ supportStats (@nil (@ExternalApiUsage Call)) = None
  /\ exists p q,
       supportedPercentage (m :: ms) = Js.Finite p
       /\ unsupportedPercentage (m :: ms) = Js.Finite q
       /\ supportStats (m :: ms) = Some (Js.Finite p, Js.Finite q).
Proof.
  repeat split; try reflexivity.
  unfold supportStats, supportedPercentage, unsupportedPercentage.
  simpl length. unfold Js.div_lengths, Js.times.
  replace (0 <? Z.of_nat (S (length ms))) with true
    by (symmetry; apply Z.ltb_lt; lia).
  eauto.
Qed.

End Aggregation.

(** C6 at four tuples over three signatures. *)
Lemma methods_groups_then_sorts_witness :
  exists result,
    methods (Some Sample.usageChunk) = inr result
    /\ map externalApiInfo (grouped (tuples Sample.usageChunk))
       = firstSeen (map signatureOf (tuples Sample.usageChunk))
    /\ NoDup (map externalApiInfo (grouped (tuples Sample.usageChunk)))
    /\ Forall (fun r =>
                 firstFlag (externalApiInfo r) (tuples Sample.usageChunk)
                 = Some (supported r)
                 /\ usages r
                    = callsOf (externalApiInfo r) (tuples Sample.usageChunk))
              result
    /\ Permutation result (grouped (tuples Sample.usageChunk))
    /\ descending usageCount result
    /\ forall n,
         withKey usageCount n result
         = withKey usageCount n (grouped (tuples Sample.usageChunk)).
Proof.
  apply (methods_groups_then_sorts Sample.usageChunk).
  repeat constructor.
Defined.

Example methods_usageChunk :
  match methods (Some Sample.usageChunk) with
  | inr ms => map (fun m => (externalApiInfo m, supported m, usages m)) ms
  | inl _ => []
  end
  = [ ("a.C#m()", false, [2; 4]%nat);
      ("a.B#m()", true, [1]%nat);
      ("a.D#m()", true, [3]%nat) ].
Proof. reflexivity. Qed.

(** C10 at a chunk whose second signature has no [#], and at a
    signature with neither dot nor parenthesis. *)
Lemma methods_total_iff_every_hash_witness :
  methods (Some Sample.brokenChunk)
  = inl (Js.TypeError "methodDeclaration is undefined")
  /\ (exists p t ps, parseSignature "Bar#baz" = inr (p, t, "", ps))
  /\ (exists t m ps, parseSignature "Bar#baz" = inr ("", t, m, ps)).
Proof.
  destruct (methods_total_iff_every_hash Sample.brokenChunk "Bar#baz")
    as (_ & Hthrow & Hparen & Hdot).
  split; [|split].
  - apply Hthrow. right. left. reflexivity.
  - apply Hparen; reflexivity.
  - apply Hdot; reflexivity.
Defined.

(** C9 as stated fails: over the empty list the percentage is the
    unguarded [0 / 0 * 100]. *)
Lemma percentage_of_nothing_is_NaN :
  supportedPercentage (@nil (@ExternalApiUsage nat)) = Js.NaN
  /\ unsupportedPercentage (@nil (@ExternalApiUsage nat)) = Js.NaN
  /\ supportedPercentage (@nil (@ExternalApiUsage nat)) <> Js.Finite 0.
Proof. repeat split; [reflexivity..|discriminate]. Qed.

(** ** The modeled methods *)

Section ModeledMethods.

Context {Call YamlData : Type}.
Variable loadDataExtensionYaml : YamlData -> gmap string ModeledMethod.
Variable window_origin : string.

Lemma lookup_spread {V} (a b : gmap string V) (k : string) :
  spread a b !! k
  = match b !! k with
    | Some v => Some v
    | None => a !! k
    end.
Proof.
  unfold spread. rewrite lookup_union.
  by destruct (b !! k), (a !! k).
Qed.

(** C1, as the component has it. On [setExistingYamlData] the loaded
    entries are laid under the ones held locally: a signature that is
    held locally keeps its local entry, whatever the document says
    for it, and only a signature that is not held locally takes the
    entry of the document. Results and progress are left alone. *)
Theorem existing_yaml_yields_to_local
    (d : YamlData) (st : @State Call) (sig : string) :
  let st' :=
    listener loadDataExtensionYaml window_origin
      {| origin := window_origin; data := setExistingYamlData d |} st in
  modeledMethods st' !! sig
  = match modeledMethods st !! sig with
    | Some localEntry => Some localEntry
    | None => loadDataExtensionYaml d !! sig
    end
  /\ results st' = results st
  /\ progress st' = progress st.
Proof.
  unfold listener. simpl. rewrite String.eqb_refl. simpl.
  unfold onExistingYamlData. by rewrite lookup_spread.
Qed.

End ModeledMethods.

(** C1 as stated fails: a signature modeled as a sink locally and as a
    source in the loaded document is a sink after the merge. *)
Lemma existing_yaml_does_not_override_local :
  let sig := "com.foo.Bar#baz(int,int)" in
  let merged :=
    modeledMethods
      (listener (fun doc => doc) "vscode-webview://editor"
         Sample.existingYaml Sample.editing) in
  Sample.persisted !! sig = Some Sample.source
  /\ Sample.local !! sig = Some Sample.sink
  /\ merged !! sig = Some Sample.sink
  /\ merged !! sig <> Sample.persisted !! sig.
Proof.
  cbv zeta.
  assert (Hmerged :
    modeledMethods
      (listener (fun doc => doc) "vscode-webview://editor"
         Sample.existingYaml Sample.editing)
    !! "com.foo.Bar#baz(int,int)" = Some Sample.sink).
  { unfold listener. simpl. unfold onExistingYamlData.
    rewrite lookup_spread. unfold Sample.local.
    by rewrite lookup_singleton_eq. }
  rewrite Hmerged. unfold Sample.persisted, Sample.local.
  rewrite !lookup_singleton_eq. done.
Qed.

(** ** Paths *)

Example join_plain :
  resultsPath Sample.queryInfo = "save-dir0/results.bqrs".
Proof. reflexivity. Qed.

Example join_normalises :
  path_join "/tmp/query/" "FetchExternalApis.ql"
  = "/tmp/query/FetchExternalApis.ql"
  /\ path_join "/tmp/query" "../Other.ql" = "/tmp/Other.ql"
  /\ path_join "a/./b//" "../../../c/" = "../c/"
  /\ path_join "/" ".." = "/"
  /\ path_join "" "" = "."
  /\ path_join "x" "" = "x".
Proof. repeat split. Qed.

(** ** Whether results can be interpreted *)

(** C2, as the test has it. Interpreted results can be had exactly when
    the database has a metadata file and the kind is defined, is not
    "table", and is not "graph" unless canary is set. *)
Theorem canHaveInterpretedResults_iff
    (metadata : option QueryMetadata) (file canary : bool) :
  canHaveInterpretedResults metadata file canary = true
  <-> file = true
      /\ exists k, metadata ≫= qkind = Some k
                   /\ k <> "table"
                   /\ (k <> "graph" \/ canary = true).
Proof.
  unfold canHaveInterpretedResults.
  destruct file; simpl; [|split; [done|by intros [? _]]].
  destruct (metadata ≫= qkind) as [k|];
    [|split; [done|by intros [_ (k & ? & _)]]].
  destruct (String.eqb_spec k "graph") as [->|Hg].
  - split.
    + intros ->. split; [done|]. exists "graph". auto.
    + intros [_ (k & [= <-] & _ & [?|?])]; done.
  - destruct (String.eqb_spec k "table") as [->|Ht]; simpl.
    + split; [done|]. by intros [_ (k & [= <-] & ? & _)].
    + split; [|done]. intros _. split; [done|]. exists k. auto.
Qed.

(** The function meets the six expectations of the test; the contract as
    worded fails the fourth. *)
Lemma canHaveInterpretedResults_meets_test :
  forallb (meets canHaveInterpretedResults) interpreted_results_expectations
  = true
  /\ map (meets canHaveInterpretedResults_spec)
       interpreted_results_expectations
     = [true; true; true; false; true; true].
Proof. split; reflexivity. Qed.

(** C2 as stated fails at the kind "table": a metadata file is there,
    the kind is defined and is not "graph", and the answer is false. *)
Lemma table_is_not_interpreted :
  let metadata := Some {| qkind := Some "table" |} in
  canHaveInterpretedResults metadata true false = false
  /\ canHaveInterpretedResults_spec metadata true false = true.
Proof. split; reflexivity. Qed.

(** ** The query server client *)

Section Client.

Context {CancellationToken ProgressCallback : Type}.
Implicit Types (qs : @QueryServerClient CancellationToken ProgressCallback).
Implicit Types (tk : CancellationToken) (pg : ProgressCallback).
Implicit Types (log : list (@Outbound CancellationToken ProgressCallback)).

(** C3, as the test has it. A call of [compile] puts one
    [compileQuery] request on the channel, with the token and the
    progress sink it was given; it throws what the exchange throws,
    and else returns, in the order of the response, the messages of
    severity ERROR, warnings left out. *)
Theorem compile_sends_once_returns_errors
    (info : QueryInProgress) qs (program : QlProgram) pg tk log :
  let sent :=
    {| request := compileQuery (compileParams qs info program);
       token := tk;
       progress_sink := pg |} in
  compile info qs program pg tk log
  = (match backend qs log sent with
     | inl e => inl e
     | inr (CheckQueryResult messages) => inr (List.filter isError messages)
     | inr (RegistrationResult _) => inr []
     end,
     log ++ [sent]).
Proof.
  unfold compile, bind, sendRequest, ret. simpl.
  by destruct (backend qs log _) as [e|[ms|dbs]].
Qed.

(** C5. Without the capability neither call sends anything; with it
    each sends one request, whose only database entry is the dataset
    path of the database under the working set "default", and passes
    on a failure of the exchange. *)
Theorem registration_is_gated qs pg tk (dbItem : DatabaseItem) log :
  let entry :=
    [ {| dbDir := datasetUri_fsPath dbItem; workingSet := "default" |} ] in
  let sent r := {| request := r; token := tk; progress_sink := pg |} in
  let outcome r :=
    match backend qs log (sent r) with
    | inl e => inl e
    | inr _ => inr tt
    end in
  registerDatabase qs pg tk dbItem log
  = (if supportsDatabaseRegistration qs
     then (outcome (registerDatabases entry),
           log ++ [sent (registerDatabases entry)])
     else (inr tt, log))
  /\ deregisterDatabase qs pg tk dbItem log
     = (if supportsDatabaseRegistration qs
        then (outcome (deregisterDatabases entry),
              log ++ [sent (deregisterDatabases entry)])
        else (inr tt, log)).
Proof.
  unfold registerDatabase, deregisterDatabase, bind, sendRequest, ret,
    registration.
  destruct (supportsDatabaseRegistration qs); simpl; [|done].
  split; by destruct (backend qs log _).
Qed.

End Client.

(** C3 as stated fails against the mock of the test: the response holds
    an error and a warning, one request is sent, and the error alone
    comes back. *)
Lemma compile_drops_warnings :
  compile Sample.queryInfo (Sample.queryServer true) Sample.qlProgram
    "progress-monitor" "cancel-token" []
  = (inr [Sample.err],
     [ {| request :=
            compileQuery
              (compileParams (Sample.queryServer true) Sample.queryInfo
                 Sample.qlProgram);
          token := "cancel-token";
          progress_sink := "progress-monitor" |} ])
  /\ [Sample.err] <> [Sample.err; Sample.warn].
Proof. split; [reflexivity|discriminate]. Qed.

Example register_supported :
  (registerDatabase (Sample.queryServer true) "progress-monitor"
     "cancel-token" Sample.dbItem []).2
  = [ {| request :=
           registerDatabases
             [ {| dbDir := "/dataset-uri"; workingSet := "default" |} ];
         token := "cancel-token";
         progress_sink := "progress-monitor" |} ].
Proof. reflexivity. Qed.

Example register_unsupported :
  registerDatabase (Sample.queryServer false) "progress-monitor"
    "cancel-token" Sample.dbItem []
  = (inr tt, []).
Proof. reflexivity. Qed.

(** ** CSV export *)

Section Csv.

Variable SELECT_QUERY_NAME : string.
Variable pageSize : Z.

Lemma len_replaceAll_quote s :
  Js.len s <= Js.len (Js.replaceAll dquote (quote +:+ quote) s).
Proof.
  induction s as [|x s IH]; simpl; [done|].
  destruct (Ascii.eqb x dquote).
  - rewrite len_app. unfold Js.len in *. simpl String.length. lia.
  - unfold Js.len in *. simpl String.length. lia.
Qed.

Lemma len_quoted v : Js.len (stringify v) + 2 <= Js.len (quoted v).
Proof.
  unfold quoted. rewrite !len_app.
  pose proof (len_replaceAll_quote (stringify v)).
  change (Js.len quote) with 1. lia.
Qed.

Lemma quoted_not_plain v : quoted v <> stringify v.
Proof.
  intros Heq. pose proof (len_quoted v) as Hlen. rewrite Heq in Hlen. lia.
Qed.

Lemma csvCell_column col v :
  csvCell (Some col) v
  = inr (if String.eqb (kind col) "String" then quoted v else stringify v).
Proof. done. Qed.

Lemma csvCells_within cols tuple i :
  (i + length tuple <= length cols)%nat ->
  exists cells,
    csvCells cols i tuple = inr cells
    /\ length cells = length tuple
    /\ forall j v col,
         tuple !! j = Some v -> cols !! (i + j)%nat = Some col ->
         cells !! j
         = Some (if String.eqb (kind col) "String"
                 then quoted v else stringify v).
Proof.
  revert i. induction tuple as [|v0 tuple IH]; intros i Hlen; simpl in *.
  - exists []. repeat split. intros j v col Hj. done.
  - destruct (lookup_lt_is_Some_2 cols i ltac:(lia)) as [col0 Hcol0].
    destruct (IH (S i) ltac:(lia)) as (cells & -> & Hcells & Hat).
    rewrite Hcol0. simpl. eexists. split; [done|].
    split; [simpl; lia|].
    intros [|j] v col Hv Hcol; simpl in *.
    + rewrite Nat.add_0_r in Hcol. by simplify_eq.
    + apply (Hat j v col Hv). by rewrite <- Nat.add_succ_r.
Qed.

Lemma doubled_nil : doubled "" = "".
Proof. done. Qed.

Lemma doubled_cons c s :
  doubled (String c s)
  = if Ascii.eqb c dquote then String dquote (String dquote (doubled s))
    else String c (doubled s).
Proof. unfold doubled. simpl. by destruct (Ascii.eqb c dquote). Qed.

Lemma replaceAll_doubled s :
  Js.replaceAll dquote (quote +:+ quote) s = doubled s.
Proof.
  induction s as [|c s IH]; [done|].
  rewrite doubled_cons. simpl. rewrite IH. by destruct (Ascii.eqb c dquote).
Qed.

Lemma quoted_text v : quoted v = quote +:+ doubled (stringify v) +:+ quote.
Proof. unfold quoted. by rewrite replaceAll_doubled. Qed.

Lemma append_cons c (a b : string) : String c a +:+ b = String c (a +:+ b).
Proof. done. Qed.

Lemma readQuotedBody_pair s :
  readQuotedBody (String dquote (String dquote s))
  = option_map (String dquote) (readQuotedBody s).
Proof. done. Qed.

Lemma readQuotedBody_plain c s :
  Ascii.eqb c dquote = false ->
  readQuotedBody (String c s) = option_map (String c) (readQuotedBody s).
Proof. intros Hc. simpl. by rewrite Hc. Qed.

Lemma readQuotedBody_doubled s : readQuotedBody (doubled s +:+ quote) = Some s.
Proof.
  induction s as [|c s IH]; [done|].
  rewrite doubled_cons. destruct (Ascii.eqb c dquote) eqn:Hc.
  - apply Ascii.eqb_eq in Hc as ->.
    by rewrite !append_cons, readQuotedBody_pair, IH.
  - by rewrite append_cons, readQuotedBody_plain, IH.
Qed.

Lemma readQuoted_quoted v : readQuoted (quoted v) = Some (stringify v).
Proof. rewrite quoted_text. apply readQuotedBody_doubled. Qed.

Lemma csvCell_text col v : csvCell (Some col) v = inr (cellText col v).
Proof. unfold csvCell, cellText. by rewrite quoted_text. Qed.

(** The decimal text of stdpp, digit by digit. *)
Lemma pretty_N_go_app (n : N) (s : string) :
  pretty_N_go n s = pretty_N_go n "" +:+ s.
Proof.
  revert s. induction (N.lt_wf_0 n) as [n _ IH]; intros s.
  destruct (N.eq_dec n 0%N) as [->|Hn]; [done|].
  rewrite !(pretty_N_go_step n) by lia.
  rewrite (IH (n `div` 10)%N) by (apply N.div_lt; lia).
  rewrite (IH (n `div` 10)%N ltac:(apply N.div_lt; lia) (String _ "")).
  by rewrite append_assoc.
Qed.

Lemma pretty_N_char_digit (n : N) :
  (n < 10)%N -> String (pretty_N_char n) "" = digit (Z.of_N n).
Proof.
  intros Hn. rewrite <- (N2Nat.id n).
  assert (Hk : (N.to_nat n < 10)%nat) by lia.
  revert Hk. generalize (N.to_nat n). intros k Hk.
  do 10 (destruct k as [|k]; [done|]). lia.
Qed.

Lemma pretty_N_digits (n : N) :
  pretty n
  = (if (n <? 10)%N then "" else pretty (n `div` 10)%N)
    +:+ digit (Z.of_N (n `mod` 10)).
Proof.
  unfold pretty, pretty_N. destruct (decide (n = 0%N)) as [->|Hn]; [done|].
  rewrite pretty_N_go_step, pretty_N_go_app by lia.
  rewrite pretty_N_char_digit by (apply N.mod_lt; lia). f_equal.
  destruct (N.ltb_spec n 10) as [Hlt|Hge].
  - by rewrite N.div_small.
  - rewrite decide_False; [done|].
    intros Hz. apply N.div_small_iff in Hz; lia.
Qed.

Lemma stringify_digits (z : Z) :
  0 <= z ->
  stringify (VInteger z)
  = (if z <? 10 then "" else stringify (VInteger (z / 10)))
    +:+ digit (z mod 10).
Proof.
  intros Hz. simpl stringify.
  assert (Hpretty : forall x : Z, 0 <= x -> pretty x = pretty (Z.to_N x)).
  { intros [|p|p] Hx; first [done|lia]. }
  rewrite (Hpretty z Hz), pretty_N_digits.
  replace (Z.of_N (Z.to_N z `mod` 10)) with (z mod 10)
    by (rewrite N2Z.inj_mod, Z2N.id; lia).
  f_equal. destruct (Z.ltb_spec z 10) as [Hlt|Hge].
  - by rewrite (proj2 (N.ltb_lt _ _)) by lia.
  - rewrite (proj2 (N.ltb_ge _ _)) by lia.
    rewrite Hpretty by (apply Z.div_pos; lia). f_equal.
    rewrite Z2N.inj_div by lia. done.
Qed.

Lemma stringify_negative (z : Z) :
  z < 0 -> stringify (VInteger z) = "-" +:+ stringify (VInteger (- z)).
Proof. by destruct z. Qed.

Lemma join_concat (sep : string) (parts : list string) :
  Js.join sep parts = String.concat sep parts.
Proof.
  induction parts as [|p parts IH]; [done|].
  simpl. destruct parts; [done|]. by rewrite IH.
Qed.

Lemma csvCells_text cols tuple i :
  (i + length tuple <= length cols)%nat ->
  csvCells cols i tuple = inr (zip_with cellText (drop i cols) tuple).
Proof.
  revert i. induction tuple as [|v tuple IH]; intros i Hlen; simpl in *.
  - by destruct (drop i cols).
  - destruct (lookup_lt_is_Some_2 cols i ltac:(lia)) as [col Hcol].
    rewrite Hcol, csvCell_text, (IH (S i)) by lia.
    by rewrite (drop_S _ _ _ Hcol).
Qed.

Lemma csvRow_text cols tuple :
  (length tuple <= length cols)%nat ->
  csvRow cols tuple = inr (rowText cols tuple).
Proof.
  intros Hlen. unfold csvRow, rowText.
  rewrite csvCells_text by done. by rewrite join_concat.
Qed.

Lemma writeTuples_text cols rows out :
  Forall (fun tuple => (length tuple <= length cols)%nat) rows ->
  writeTuples cols rows out
  = (None, out +:+ foldr String.append "" (map (rowText cols) rows)).
Proof.
  intros Hrows. revert out.
  induction Hrows as [|r rows Hr Hrows IH]; intros out; simpl.
  - by rewrite append_nil_r.
  - rewrite csvRow_text, IH by done. by rewrite append_assoc.
Qed.

Lemma decodePages_text fuel cli results resultSet offset chunks out :
  servesPages pageSize cli results resultSet offset chunks ->
  Forall fitsColumns chunks ->
  (length chunks <= fuel)%nat ->
  decodePages pageSize fuel cli results resultSet offset out
  = (Exhausted, out +:+ fileText chunks).
Proof.
  intros Hpages. revert fuel out.
  induction Hpages as [offset Hlast|offset nextOffset chunks Hnext Hne _ IH];
    intros fuel out Hfit Hfuel;
    (destruct fuel as [|fuel]; [simpl in Hfuel; lia|]);
    apply Forall_cons in Hfit as [Hthis Hrest]; simpl decodePages;
    rewrite writeTuples_text by exact Hthis.
  - unfold fileText. simpl. rewrite append_nil_r.
    by destruct Hlast as [->| ->].
  - rewrite Hnext. destruct (Z.eqb_spec nextOffset 0); [done|].
    rewrite IH by (simpl in Hfuel; done || lia).
    unfold fileText. simpl. by rewrite append_assoc.
Qed.

Lemma chooseResultSet_exported cli results :
  chooseResultSet SELECT_QUERY_NAME cli results
  = exportedResultSet SELECT_QUERY_NAME (bqrsInfo cli results).
Proof.
  unfold chooseResultSet, exportedResultSet.
  destruct (bqrsInfo cli results) as [|first rest]; [done|].
  assert (Hiff :
    existsb (String.eqb SELECT_QUERY_NAME) (first :: rest)
    = bool_decide (SELECT_QUERY_NAME ∈ first :: rest)).
  { generalize (first :: rest). intros l.
    induction l as [|x l IH]; [done|]. simpl. rewrite IH.
    destruct (String.eqb_spec SELECT_QUERY_NAME x) as [->|Hne]; simpl.
    - by rewrite bool_decide_eq_true_2 by left.
    - apply bool_decide_ext. rewrite elem_of_cons. tauto. }
  rewrite Hiff. by destruct (bool_decide _).
Qed.

(** C4. A cell is written between double quotes, the quotes inside it
    doubled, exactly when the kind of its column is "String"; under
    any other kind it is written as it stringifies, whatever it
    holds. In a row that fits the columns every cell is written this
    way, the cells are joined by commas and the row ends in a line
    feed. For the columns [NotString, String] and the tuples
    [["a","b"],["c","d"]] the file holds the two records of [csv_ab]
    and nothing after them.

    What the two writings are: the quoted text is the stringified cell
    with each double quote written twice, between two quotes (the
    character 34), so that a reader of quoted fields gets the
    stringified cell back; the line feed is the character 10; a string
    stringifies to itself, a boolean to [true] or [false], a decimal to
    its text, an integer a number holds exactly to its decimal digits,
    with a minus sign before them when it is negative.

    What the file is: whenever the CLI serves the pages of the exported
    result set (the [select] one if there is one, else the first) and no
    row is longer than the columns of its page, the export returns
    [true] and the file holds, page after page and row after row, the
    cells of each row between commas and a line feed after each row. *)
Theorem csv_quotes_string_columns_only :
  (forall col v,
      csvCell (Some col) v = inr (quoted v) <-> kind col = "String")
  /\ (forall col v,
        kind col <> "String" -> csvCell (Some col) v = inr (stringify v))
  /\ (forall cols tuple,
        (length tuple <= length cols)%nat ->
        exists cells,
          csvRow cols tuple = inr (Js.join "," cells +:+ newline)
          /\ length cells = length tuple
          /\ forall j v col,
               tuple !! j = Some v -> cols !! j = Some col ->
               cells !! j
               = Some (if String.eqb (kind col) "String"
                       then quoted v else stringify v))
  /\ (forall fuel info cli csvPath (fs : Files),
        bqrsInfo cli (resultsPath info) <> [] ->
        (forall resultSet,
            bqrsDecode cli (resultsPath info) resultSet pageSize 0
            = Sample.chunk_ab) ->
        exportCsvResults SELECT_QUERY_NAME pageSize (S fuel) info cli
          csvPath fs
        = Some (inr true, <[csvPath := Sample.csv_ab]> fs))
  /\ (forall v,
        quoted v = quote +:+ doubled (stringify v) +:+ quote
        /\ readQuoted (quoted v) = Some (stringify v))
  /\ quote = String (ascii_of_nat 34) EmptyString
  /\ newline = String (ascii_of_nat 10) EmptyString
  /\ (forall s, stringify (VString s) = s)
  /\ stringify (VBoolean true) = "true"
  /\ stringify (VBoolean false) = "false"
  /\ (forall shown, stringify (VDecimal shown) = shown)
  /\ (forall z,
        safeInteger z -> 0 <= z ->
        stringify (VInteger z)
        = (if z <? 10 then "" else stringify (VInteger (z / 10)))
          +:+ digit (z mod 10))
  /\ (forall z,
        safeInteger z -> z < 0 ->
        stringify (VInteger z) = "-" +:+ stringify (VInteger (- z)))
  /\ (forall cols tuple,
        (length tuple <= length cols)%nat ->
        csvRow cols tuple = inr (rowText cols tuple))
  /\ (forall fuel info cli csvPath (fs : Files) resultSet chunks,
        exportedResultSet SELECT_QUERY_NAME (bqrsInfo cli (resultsPath info))
        = Some resultSet ->
        servesPages pageSize cli (resultsPath info) resultSet 0 chunks ->
        Forall fitsColumns chunks ->
        (length chunks <= fuel)%nat ->
        exportCsvResults SELECT_QUERY_NAME pageSize fuel info cli csvPath fs
        = Some (inr true, <[csvPath := fileText chunks]> fs)).
Proof.
  repeat lazymatch goal with |- _ /\ _ => split end.
  - intros col v. rewrite csvCell_column.
    destruct (String.eqb_spec (kind col) "String") as [Hk|Hk].
    + done.
    + split; [|done]. intros [= Heq]. symmetry in Heq.
      by apply quoted_not_plain in Heq.
  - intros col v Hk. rewrite csvCell_column.
    by destruct (String.eqb_spec (kind col) "String").
  - intros cols tuple Hlen. unfold csvRow.
    destruct (csvCells_within cols tuple 0 Hlen) as (cells & -> & Hl & Hat).
    exists cells. split; [done|]. split; [done|].
    intros j v col Hv Hcol. by apply Hat.
  - intros fuel info cli csvPath fs Hsets Hdecode.
    unfold exportCsvResults, chooseResultSet.
    destruct (bqrsInfo cli (resultsPath info)) as [|name names]; [done|].
    destruct (existsb _ _); simpl; by rewrite Hdecode.
  - intros v. split; [apply quoted_text|apply readQuoted_quoted].
  - done.
  - done.
  - done.
  - done.
  - done.
  - done.
  - intros z _ Hz. by apply stringify_digits.
  - intros z _ Hz. by apply stringify_negative.
  - apply csvRow_text.
  - intros fuel info cli csvPath fs resultSet chunks Hset Hpages Hfit Hfuel.
    unfold exportCsvResults. rewrite chooseResultSet_exported, Hset.
    by rewrite (decodePages_text _ _ _ _ _ chunks).
Qed.

(** C7. When the results file has no result set the export returns
    [false], throws nothing, and leaves every file as it was: nothing
    is written under the target path. *)
Theorem export_without_result_sets
    fuel info cli csvPath (fs : Files) :
  bqrsInfo cli (resultsPath info) = [] ->
  exportCsvResults SELECT_QUERY_NAME pageSize fuel info cli csvPath fs
  = Some (inr false, fs).
Proof.
  intros Hsets. unfold exportCsvResults, chooseResultSet. by rewrite Hsets.
Qed.

End Csv.

(** C4 on the [select] result set of the test, with a column and two
    cells picked out, and on the two pages of the paged mock. *)
Lemma csv_quotes_string_columns_only_witness :
  csvCell (Some {| kind := "String" |}) (VBoolean false)
  = inr (quoted (VBoolean false))
  /\ csvCell (Some {| kind := "NotString" |}) (VString "c,xxx") = inr "c,xxx"
  /\ exportCsvResults "#select" 100 1 Sample.queryInfo
       (Sample.cliServer ["#select"; "hucairz"]) "test.csv"
       {[ "other.csv" := "kept" ]}
     = Some (inr true,
             <[ "test.csv" := Sample.csv_ab ]> {[ "other.csv" := "kept" ]})
  /\ stringify (VInteger 456) = "45" +:+ digit 6
  /\ stringify (VInteger (-7)) = "-" +:+ "7"
  /\ exportCsvResults "#select" 100 2 Sample.queryInfo
       (Sample.pagedCliServer ["hucairz"; "#select"]) "test.csv" ∅
     = Some (inr true,
             <[ "test.csv" := fileText [Sample.page1; Sample.page2] ]> ∅).
Proof.
  destruct (csv_quotes_string_columns_only "#select" 100)
    as (Hquoted & Hplain & _ & Hexport & _ & _ & _ & _ & _ & _ & _ & Hdigits
        & Hminus & _ & Hpaged).
  split; [|split; [|split; [|split; [|split]]]].
  - by apply Hquoted.
  - by apply (Hplain {| kind := "NotString" |} (VString "c,xxx")).
  - by apply (Hexport 0%nat Sample.queryInfo
                (Sample.cliServer ["#select"; "hucairz"])).
  - apply (Hdigits 456); [unfold safeInteger|]; lia.
  - apply (Hminus (-7)); [unfold safeInteger|]; lia.
  - apply (Hpaged 2%nat Sample.queryInfo
             (Sample.pagedCliServer ["hucairz"; "#select"]) "test.csv" ∅
             "#select" [Sample.page1; Sample.page2]).
    + reflexivity.
    + exact (nextPage 100 (Sample.pagedCliServer ["hucairz"; "#select"])
               (resultsPath Sample.queryInfo) "#select" 0 1 [Sample.page2]
               eq_refl ltac:(lia)
               (lastPage 100 (Sample.pagedCliServer ["hucairz"; "#select"])
                  (resultsPath Sample.queryInfo) "#select" 1
                  (or_introl eq_refl))).
    + repeat constructor.
    + simpl. lia.
Defined.

Example paged_file_text :
  fileText [Sample.page1; Sample.page2] = Sample.csv_pages.
Proof. reflexivity. Qed.

Example escapes_file_text : fileText [Sample.escapesChunk] = Sample.csv_escapes.
Proof. reflexivity. Qed.

(** C7 on the mock of the test, whose results file has no result set,
    with a file already under the target path. *)
Lemma export_without_result_sets_witness :
  exportCsvResults "#select" 100 0 Sample.queryInfo (Sample.cliServer [])
    "test.csv" {[ "test.csv" := "kept" ]}
  = Some (inr false, {[ "test.csv" := "kept" ]}).
Proof.
  apply (export_without_result_sets "#select" 100 0%nat Sample.queryInfo
           (Sample.cliServer []) "test.csv").
  reflexivity.
Defined.

(** The exports of the test file, read back. *)
Example csv_ab_text :
  Sample.csv_ab
  = String.concat quote ["a,"; "b"; newline +:+ "c,"; "d"; newline].
Proof. reflexivity. Qed.

Example export_two_pages (resultSetName : string) :
  exportCsvResults "#select" 100 2 Sample.queryInfo
    (Sample.pagedCliServer [resultSetName; "hucairz"]) "test.csv" ∅
  = Some (inr true, <[ "test.csv" := Sample.csv_pages ]> ∅).
Proof.
  unfold exportCsvResults, chooseResultSet.
  change (bqrsInfo _ _) with [resultSetName; "hucairz"].
  cbv iota beta. by destruct (existsb (String.eqb "#select") [resultSetName; "hucairz"]).
Qed.

Example export_out_of_pages :
  exportCsvResults "#select" 100 1 Sample.queryInfo
    (Sample.pagedCliServer ["#select"]) "test.csv" ∅
  = None.
Proof. reflexivity. Qed.

Example export_escapes :
  exportCsvResults "#select" 100 1 Sample.queryInfo Sample.escapesCliServer
    "test.csv" ∅
  = Some (inr true, <[ "test.csv" := Sample.csv_escapes ]> ∅).
Proof. reflexivity. Qed.

Example export_row_beyond_columns :
  csvRow [ {| kind := "String" |} ] [VString "a"; VString "b"]
  = inl (Js.TypeError "chunk.columns[i] is undefined").
Proof. reflexivity. Qed.

(** ** Sessions of the ExternalApi component *)

Section Sessions.

Context {Call YamlData : Type}.
Variable loadDataExtensionYaml : YamlData -> gmap string ModeledMethod.
Variable window_origin : string.

Implicit Types (st : @State Call) (evt : @MessageEvent Call YamlData).
Implicit Types (old new : gmap string ModeledMethod) (sig : string).


Local Abbreviation handle := (listener loadDataExtensionYaml window_origin).
Local Abbreviation session := (deliver loadDataExtensionYaml window_origin).

Lemma lookup_edited old sig :
  filter (fun kv : string * ModeledMethod => type kv.2 <> "none") old !! sig
  = match old !! sig with
    | Some m => if String.eqb (type m) "none" then None else Some m
    | None => None
    end.
Proof.
  rewrite map_lookup_filter. destruct (old !! sig) as [m|]; simpl; [|done].
  destruct (String.eqb_spec (type m) "none") as [Hn|Hn].
  - by rewrite option_guard_False by (simpl; tauto).
  - by rewrite option_guard_True.
Qed.

Lemma lookup_onAddModeledMethods new old sig :
  onAddModeledMethods new old !! sig
  = match old !! sig with
    | Some m => if String.eqb (type m) "none" then new !! sig else Some m
    | None => new !! sig
    end.
Proof.
  unfold onAddModeledMethods. rewrite lookup_spread, lookup_edited.
  destruct (old !! sig) as [m|]; [|done]. by destruct (String.eqb _ _).
Qed.

Lemma lookup_onExistingYamlData d old sig :
  onExistingYamlData loadDataExtensionYaml d old !! sig
  = match old !! sig with
    | Some m => Some m
    | None => loadDataExtensionYaml d !! sig
    end.
Proof. unfold onExistingYamlData. by rewrite lookup_spread. Qed.

(** X1. On [addModeledMethods] a signature keeps its local entry when
    that entry has a type other than "none"; every other signature
    gets what the message holds for it, and loses its entry when the
    message holds nothing: a local entry of type "none" does not
    outlive the message. Results and progress are left alone. *)
Theorem added_models_yield_to_edited new st sig :
  let st' :=
    listener loadDataExtensionYaml window_origin
      {| origin := window_origin; data := addModeledMethods new |} st in
  modeledMethods st' !! sig
  = match modeledMethods st !! sig with
    | Some localEntry =>
        if String.eqb (type localEntry) "none" then new !! sig
        else Some localEntry
    | None => new !! sig
    end
  /\ results st' = results st
  /\ progress st' = progress st.
Proof.
  unfold listener. simpl. rewrite String.eqb_refl. simpl.
  by rewrite lookup_onAddModeledMethods.
Qed.

Lemma handle_keeps_edited evt st sig m :
  modeledMethods st !! sig = Some m -> type m <> "none" ->
  modeledMethods (handle evt st) !! sig = Some m.
Proof.
  intros Hm Hn. unfold listener.
  destruct (String.eqb _ _); [|done].
  destruct (data evt) as [r|p|d|new]; simpl; try done.
  - by rewrite lookup_onExistingYamlData, Hm.
  - rewrite lookup_onAddModeledMethods, Hm.
    by destruct (String.eqb_spec (type m) "none").
Qed.

(** X2. Whatever messages arrive, from whatever origin and in whatever
    order, a signature that is held with a type other than "none"
    keeps its entry unchanged to the end of the session. *)
Theorem edited_models_survive (evts : list (@MessageEvent Call YamlData))
    st sig m :
  modeledMethods st !! sig = Some m -> type m <> "none" ->
  modeledMethods (deliver loadDataExtensionYaml window_origin evts st) !! sig
  = Some m.
Proof.
  revert st. induction evts as [|evt evts IH]; intros st Hm Hn; [done|].
  simpl. apply IH; [|done]. by apply handle_keeps_edited.
Qed.

(** X3. A message that arrives twice in a row does what it does once. *)
Theorem redelivery_changes_nothing evt st :
  listener loadDataExtensionYaml window_origin evt
    (listener loadDataExtensionYaml window_origin evt st)
  = listener loadDataExtensionYaml window_origin evt st.
Proof.
  unfold listener. destruct (String.eqb _ _) eqn:Ho; [|done].
  destruct (data evt) as [r|p|d|new]; simpl; try done.
  - f_equal. apply map_eq. intros sig.
    rewrite !lookup_onExistingYamlData.
    destruct (modeledMethods st !! sig); [done|].
    by destruct (loadDataExtensionYaml d !! sig).
  - f_equal. apply map_eq. intros sig.
    rewrite !lookup_onAddModeledMethods.
    destruct (modeledMethods st !! sig) as [m|] eqn:Hm.
    + destruct (String.eqb (type m) "none") eqn:Hn; [|by rewrite Hn].
      destruct (new !! sig) as [m'|]; [|done].
      by destruct (String.eqb (type m') _).
    + destruct (new !! sig) as [m'|]; [|done].
      by destruct (String.eqb (type m') _).
Qed.

(** X4. The events of a foreign origin count for nothing: a session
    ends in the state it reaches on its own-origin events alone. *)
Theorem foreign_events_are_ignored (evts : list (@MessageEvent Call YamlData))
    st :
  deliver loadDataExtensionYaml window_origin evts st
  = deliver loadDataExtensionYaml window_origin
      (List.filter (sameOrigin window_origin) evts) st.
Proof.
  revert st. induction evts as [|evt evts IH]; intros st; [done|].
  simpl. unfold sameOrigin at 1.
  destruct (String.eqb (origin evt) window_origin) eqn:Ho; simpl.
  - apply IH.
  - rewrite <- IH. f_equal. unfold listener. by rewrite Ho.
Qed.

(** X5. A model the user sets for a row is what the row shows
    afterwards. Set to a type other than "none" it stays through every
    later message; set to "none" it is replaced by the next
    [addModeledMethods], which puts its own entry for the signature
    there or none. *)
Theorem change_against_messages
    (method : @ExternalApiUsage Call) (model : ModeledMethod) new
    (evts : list (@MessageEvent Call YamlData)) st :
  let sig := externalApiInfo method in
  let st' := changed method model st in
  modeledMethods st' !! sig = Some model
  /\ (forall other, other <> sig ->
                    modeledMethods st' !! other = modeledMethods st !! other)
  /\ (if String.eqb (type model) "none"
      then modeledMethods
             (listener loadDataExtensionYaml window_origin
                {| origin := window_origin; data := addModeledMethods new |}
                st') !! sig
           = new !! sig
      else modeledMethods
             (deliver loadDataExtensionYaml window_origin evts st') !! sig
           = Some model).
Proof.
  cbv zeta.
  assert (Hset :
    modeledMethods (changed method model st) !! externalApiInfo method
    = Some model).
  { unfold changed, onChange. simpl.
    by rewrite lookup_spread, lookup_singleton_eq. }
  split; [done|split].
  - intros other Hne. unfold changed, onChange. simpl.
    by rewrite lookup_spread, lookup_singleton_ne.
  - destruct (String.eqb_spec (type model) "none") as [Hn|Hn].
    + destruct (added_models_yield_to_edited new
                  (changed method model st) (externalApiInfo method))
        as [-> _].
      rewrite Hset. by rewrite (proj2 (String.eqb_eq _ _) Hn).
    + by apply edited_models_survive.
Qed.

(** X6. Loading the persisted document never takes a signature away:
    afterwards exactly the signatures held before and those of the
    document are held. [addModeledMethods] can take one away: held
    afterwards are the signatures of the message and those held before
    with a type other than "none". *)
Theorem signatures_after_merge (d : YamlData) new
    (old : gmap string ModeledMethod) sig :
  (is_Some (onExistingYamlData loadDataExtensionYaml d old !! sig)
   <-> is_Some (old !! sig) \/ is_Some (loadDataExtensionYaml d !! sig))
  /\ (is_Some (onAddModeledMethods new old !! sig)
      <-> is_Some (new !! sig)
          \/ exists m, old !! sig = Some m /\ type m <> "none").
Proof.
  rewrite lookup_onExistingYamlData, lookup_onAddModeledMethods.
  destruct (old !! sig) as [m|]; split.
  - split; [by left|eauto].
  - destruct (String.eqb_spec (type m) "none") as [Hn|Hn].
    + split; [by left|]. intros [?|(m' & [= <-] & ?)]; done.
    + split; [|eauto]. intros _. right. eauto.
  - split; [by right|]. intros [[? [=]]|?]; done.
  - split; [by left|]. intros [?|(m' & [=] & _)]; done.
Qed.

End Sessions.

(** X2 on the session of one loaded document and one batch of fresh
    candidates, for the signature held as a sink. *)
Lemma edited_models_survive_witness :
  modeledMethods
    (deliver (fun doc => doc) "vscode-webview://editor"
       [ Sample.existingYaml;
         {| origin := "vscode-webview://editor";
            data := addModeledMethods Sample.persisted |} ]
       Sample.editing)
  !! "com.foo.Bar#baz(int,int)"
  = Some Sample.sink.
Proof.
  apply (edited_models_survive (fun doc => doc) "vscode-webview://editor").
  - unfold Sample.editing, Sample.local. simpl.
    by rewrite lookup_singleton_eq.
  - discriminate.
Defined.
(** ** More on the usage aggregation *)

Section Calls.

Context {Call : Type}.
Implicit Types (t : @UsageTuple Call) (ts : list (@UsageTuple Call)).
Implicit Types (k : string) (ks : list string).

Lemma sum_list_with_map {A B} (f : B -> nat) (g : A -> B) (l : list A) :
  sum_list_with f (map g l) = sum_list_with (fun a => f (g a)) l.
Proof. induction l as [|a l IH]; simpl; [done|]. by rewrite IH. Qed.

Lemma sum_list_with_plus {A} (f g : A -> nat) (l : list A) :
  sum_list_with (fun a => (f a + g a)%nat) l
  = (sum_list_with f l + sum_list_with g l)%nat.
Proof. induction l as [|a l IH]; simpl; [done|]. rewrite IH. lia. Qed.

Lemma sum_list_with_ext_in {A} (f g : A -> nat) (l : list A) :
  (forall a, a ∈ l -> f a = g a) -> sum_list_with f l = sum_list_with g l.
Proof.
  induction l as [|a l IH]; intros Hfg; simpl; [done|].
  rewrite Hfg, IH; [done| |left]. intros b Hb. apply Hfg. by right.
Qed.

(** Among distinct keys, one key is met once. *)
Lemma met_once k0 ks :
  NoDup ks ->
  sum_list_with (fun k => if String.eqb k0 k then 1%nat else 0%nat) ks
  = if bool_decide (k0 ∈ ks) then 1%nat else 0%nat.
Proof.
  induction 1 as [|k ks Hk Hks IH]; simpl; [done|].
  rewrite IH. destruct (String.eqb_spec k0 k) as [->|Hne].
  - rewrite (bool_decide_eq_true_2 (k ∈ k :: ks)) by left.
    by rewrite (bool_decide_eq_false_2 (k ∈ ks)).
  - simpl. rewrite (bool_decide_ext (k0 ∈ k :: ks) (k0 ∈ ks)); [done|].
    rewrite elem_of_cons. tauto.
Qed.

Lemma occurrences_cons k t ts :
  length (occurrences k (t :: ts))
  = ((if String.eqb (signatureOf t) k then 1 else 0)
     + length (occurrences k ts))%nat.
Proof. unfold occurrences. simpl. by destruct (String.eqb _ _). Qed.

(** Counted signature by signature, the tuples are all there. *)
Lemma occurrences_total ks ts :
  NoDup ks -> (forall t, t ∈ ts -> signatureOf t ∈ ks) ->
  sum_list_with (fun k => length (occurrences k ts)) ks = length ts.
Proof.
  intros Hks. induction ts as [|t ts IH]; intros Hin.
  - clear. induction ks as [|k ks IHk]; simpl; done.
  - rewrite (sum_list_with_ext_in _ _ _ (fun k _ => occurrences_cons k t ts)).
    rewrite sum_list_with_plus, met_once by done.
    rewrite bool_decide_eq_true_2 by (apply Hin; left).
    rewrite IH; [done|]. intros t' Ht'. apply Hin. by right.
Qed.

Lemma totalUsages_grouped ts : totalUsages (grouped ts) = length ts.
Proof.
  unfold totalUsages, grouped. rewrite sum_list_with_map.
  rewrite <- (occurrences_total (firstSeen (map signatureOf ts)) ts).
  - apply sum_list_with_ext_in. intros k _.
    unfold usageCount. rewrite recordOf_usages. unfold callsOf.
    by rewrite length_map.
  - apply NoDup_firstSeen.
  - intros t Ht. rewrite elem_of_firstSeen. by apply list_elem_of_fmap_2.
Qed.

Lemma grouped_used ts :
  Forall (fun r => (1 <= usageCount r)%nat) (grouped ts).
Proof.
  unfold grouped. apply Forall_map, Forall_forall. intros k Hk.
  rewrite elem_of_firstSeen in Hk. apply occurrences_some in Hk.
  unfold usageCount. rewrite recordOf_usages. unfold callsOf.
  rewrite length_map. destruct (occurrences k ts); [done|simpl; lia].
Qed.

Lemma firstSeen_length ks : (length (firstSeen ks) <= length ks)%nat.
Proof.
  induction ks as [|k ks IH]; simpl; [done|].
  pose proof (List.filter_length_le
                (fun k' => negb (String.eqb k' k)) (firstSeen ks)).
  lia.
Qed.

(** X7. When the memo returns, no call is lost and none is counted
    twice: the usages of its records add up to the number of tuples.
    Every record has at least one usage, and there are no more records
    than tuples. *)
Theorem methods_keeps_every_call
    (chunk : DecodedBqrsChunk (@UsageTuple Call)) :
  Forall hasHash (tuples chunk) ->
  exists result,
    methods (Some chunk) = inr result
    /\ totalUsages result = length (tuples chunk)
    /\ Forall (fun r => (1 <= usageCount r)%nat) result
    /\ (length result <= length (tuples chunk))%nat.
Proof.
  intros Hall. eexists. split; [by apply methods_grouped|].
  pose proof (sort_perm byUsagesDescending (grouped (tuples chunk)))
    as Hperm.
  split; [|split].
  - unfold totalUsages. rewrite Hperm. apply totalUsages_grouped.
  - eapply Permutation_Forall; [symmetry; exact Hperm|]. apply grouped_used.
  - rewrite (Permutation_length Hperm). unfold grouped.
    rewrite length_map.
    etrans; [apply firstSeen_length|]. by rewrite length_map.
Qed.

End Calls.

(** X7 on four tuples over three signatures. *)
Lemma methods_keeps_every_call_witness :
  exists result,
    methods (Some Sample.usageChunk) = inr result
    /\ totalUsages result = 4%nat
    /\ Forall (fun r => (1 <= usageCount r)%nat) result
    /\ (length result <= 4)%nat.
Proof.
  apply (methods_keeps_every_call Sample.usageChunk).
  repeat constructor.
Defined.

Section Pieces.

(** A string that holds a character splits at its first, and at its
    last, occurrence. *)
Lemma first_occurrence c s :
  Js.includes c s = true ->
  exists a b, s = a +:+ String c b /\ Js.includes c a = false.
Proof.
  induction s as [|x s IH]; simpl; [done|].
  destruct (Ascii.eqb_spec x c) as [->|Hx]; simpl.
  - intros _. by exists "", s.
  - intros (a & b & -> & Ha)%IH. exists (String x a), b. split; [done|].
    simpl. rewrite Ha. by rewrite (proj2 (Ascii.eqb_neq _ _) Hx).
Qed.

Lemma last_occurrence c s :
  Js.includes c s = true ->
  exists a b, s = a +:+ String c b /\ Js.includes c b = false.
Proof.
  induction s as [|x s IH]; simpl; [done|].
  destruct (Js.includes c s) eqn:Hs.
  - intros _. destruct (IH eq_refl) as (a & b & -> & Hb).
    by exists (String x a), b.
  - rewrite orb_false_r. intros ->%Ascii.eqb_eq. by exists "", s.
Qed.

(** X8. Of a signature with one [#] nothing is dropped and nothing is
    made up: the method name and the parameters, put together, are what
    follows the [#]; the name holds no parenthesis and the type no dot;
    with a dot before the [#], package, dot and type are what precedes
    the [#], and without one the package is empty and the type is all
    of it. *)
Theorem parseSignature_reassembles (pw md : string) :
  Js.includes "#" pw = false -> Js.includes "#" md = false ->
  exists p t m ps,
    parseSignature (pw +:+ "#" +:+ md) = inr (p, t, m, ps)
    /\ m +:+ ps = md
    /\ Js.includes "(" m = false
    /\ Js.includes "." t = false
    /\ (if Js.includes "." pw then p +:+ "." +:+ t = pw
        else p = "" /\ t = pw).
Proof.
  intros Hpw Hmd. rewrite parseSignature_shape by done.
  do 4 eexists. split; [done|].
  assert (Hdecl :
    Js.substring md 0 (Js.indexOf "(" md)
    +:+ Js.substring_from md (Js.indexOf "(" md) = md
    /\ Js.includes "(" (Js.substring md 0 (Js.indexOf "(" md)) = false).
  { destruct (Js.includes "(" md) eqn:Hparen.
    - destruct (first_occurrence _ _ Hparen) as (m & rest & -> & Hm).
      destruct (methodDeclaration_parts m rest Hm) as [Hname Hparams].
      cbv zeta in Hname, Hparams.
      change (String "(" rest) with ("(" +:+ rest).
      by rewrite Hname, Hparams.
    - unfold Js.indexOf. rewrite indexOf_from_absent by done.
      by rewrite substring_to_minus_one, substring_from_minus_one. }
  destruct Hdecl as [Hwhole Hname]. split; [done|]. split; [done|].
  destruct (Js.includes "." pw) eqn:Hdot.
  - destruct (last_occurrence _ _ Hdot) as (pkg & ty & -> & Hty).
    destruct (packageWithType_parts pkg ty Hty) as [Hp Ht].
    cbv zeta in Hp, Ht.
    change (String "." ty) with ("." +:+ ty).
    by rewrite Hp, Ht.
  - unfold Js.lastIndexOf. rewrite lastIndexOf_from_absent by done.
    rewrite substring_to_minus_one. simpl Z.add.
    by rewrite substring_from_zero.
Qed.

(** X9. What follows a second [#] is not read: the four parts of a
    signature are those of its text up to the second [#]. *)
Theorem parseSignature_ignores_second_hash (pw md rest : string) :
  Js.includes "#" pw = false -> Js.includes "#" md = false ->
  parseSignature (pw +:+ "#" +:+ md +:+ "#" +:+ rest)
  = parseSignature (pw +:+ "#" +:+ md).
Proof.
  intros Hpw Hmd. rewrite (parseSignature_shape pw md) by done.
  unfold parseSignature.
  change ("#" +:+ md +:+ "#" +:+ rest)
    with (String "#" (md +:+ String "#" rest)).
  by rewrite !split_first.
Qed.

End Pieces.

(** X8 on a signature with a dotted package, and on one with neither
    dot nor parenthesis. *)
Lemma parseSignature_reassembles_witness :
  (exists p t m ps,
      parseSignature "com.foo.Bar#baz(int,int)" = inr (p, t, m, ps)
      /\ m +:+ ps = "baz(int,int)"
      /\ Js.includes "(" m = false
      /\ Js.includes "." t = false
      /\ p +:+ "." +:+ t = "com.foo.Bar")
  /\ (exists p t m ps,
        parseSignature "Bar#baz" = inr (p, t, m, ps)
        /\ m +:+ ps = "baz"
        /\ Js.includes "(" m = false
        /\ Js.includes "." t = false
        /\ p = "" /\ t = "Bar").
Proof.
  split.
  - exact (parseSignature_reassembles "com.foo.Bar" "baz(int,int)"
             eq_refl eq_refl).
  - exact (parseSignature_reassembles "Bar" "baz" eq_refl eq_refl).
Defined.

(** X9 on a signature with a [#] among its parameters. *)
Lemma parseSignature_ignores_second_hash_witness :
  parseSignature "a.B#m(x#y)" = parseSignature "a.B#m(x".
Proof.
  exact (parseSignature_ignores_second_hash "a.B" "m(x" "y)" eq_refl eq_refl).
Defined.
(** ** The support stats *)

Section Stats.

Context {Call : Type}.
Implicit Types (ms : list (@ExternalApiUsage Call)).

Lemma filter_split {A} (f : A -> bool) (l : list A) :
  (length (List.filter f l) + length (List.filter (fun a => negb (f a)) l)
   = length l)%nat.
Proof.
  induction l as [|a l IH]; simpl; [done|]. destruct (f a); simpl; lia.
Qed.

Lemma hundredths_within (k n : nat) :
  (k <= S n)%nat ->
  (0 <= (Z.of_nat k # Pos.of_nat (S n)) * 100 <= 100)%Q.
Proof.
  intros Hk. unfold Qle, Qmult. simpl Qnum. simpl Qden.
  rewrite !Z.mul_1_r.
  replace (Z.pos (Pos.of_nat (S n) * 1)) with (Z.of_nat (S n))
    by (rewrite Pos.mul_1_r; lia).
  lia.
Qed.

(** X10. The view shows the two percentages exactly when there are
    methods, and what it shows then is never NaN or an infinity: both
    are numbers between 0 and 100. *)
Theorem shown_percentages_are_sound ms :
  match supportStats ms with
  | None => ms = []
  | Some (Js.Finite p, Js.Finite q) =>
      ms <> [] /\ (0 <= p <= 100)%Q /\ (0 <= q <= 100)%Q
  | Some _ => False
  end.
Proof.
  destruct ms as [|m ms]; [done|].
  unfold supportStats, supportedPercentage, unsupportedPercentage.
  replace (0 <? Z.of_nat (length (m :: ms))) with true
    by (symmetry; apply Z.ltb_lt; simpl; lia).
  pose proof (filter_split supported (m :: ms)) as Hsplit.
  simpl length in Hsplit |- *. unfold Js.div_lengths, Js.times.
  split; [done|]. split.
  - apply hundredths_within. lia.
  - apply hundredths_within. lia.
Qed.

End Stats.
(** ** The method modeling panel *)

Section Panel.

Import MethodModeling.

Context {Method LegacyModeledMethod ModeledMethods View Failure : Type}.
Variable signature : Method -> string.
Variable legacySignature : LegacyModeledMethod -> string.
Variable convertToLegacyModeledMethod :
  ModeledMethods -> option LegacyModeledMethod.
Variable convertFromLegacyModeledMethod :
  LegacyModeledMethod -> ModeledMethods.

Local Abbreviation Eff :=
  (@Effect Method LegacyModeledMethod ModeledMethods View Failure).
Local Abbreviation Prov := (@Provider Method).
Local Abbreviation Surroundings :=
  (@Env Method ModeledMethods View).

Local Abbreviation receive :=
  (onMessage legacySignature convertToLegacyModeledMethod
     convertFromLegacyModeledMethod).
Local Abbreviation advance :=
  (step signature legacySignature convertToLegacyModeledMethod
     convertFromLegacyModeledMethod).
Local Abbreviation running :=
  (run signature legacySignature convertToLegacyModeledMethod
     convertFromLegacyModeledMethod).
Local Abbreviation close :=
  (@onDbClosed Method LegacyModeledMethod ModeledMethods View Failure).
Local Abbreviation select :=
  (@onSelectedMethodChanged Method LegacyModeledMethod ModeledMethods View
     Failure convertToLegacyModeledMethod).
Local Abbreviation In :=
  (@Input Method LegacyModeledMethod ModeledMethods Failure).
Local Abbreviation FromView :=
  (@FromMethodModelingMessage Method LegacyModeledMethod Failure).

Implicit Types (trace : list Eff) (this : Prov) (env : Surroundings).
Implicit Types (i : In) (msg : FromView).

Lemma list_ind_pairs {A} (P : list A -> Prop) :
  P [] -> (forall a, P [a]) ->
  (forall a b l, P l -> P (b :: l) -> P (a :: b :: l)) ->
  forall l, P l.
Proof.
  intros Hnil Hone Hstep l.
  assert (H : P l /\ forall a, P (a :: l)); [|by destruct H].
  induction l as [|b l [IH1 IH2]]; [by split|].
  split; [apply IH2|]. intros a. by apply Hstep.
Qed.

Lemma paired_app trace trace' :
  paired trace -> paired trace' -> paired (trace ++ trace').
Proof.
  revert trace'. induction trace as [|a|a b l IHl IHbl] using list_ind_pairs;
    intros trace' H H'.
  - done.
  - destruct a; try done; simpl; by destruct trace' as [|[] ?].
  - destruct a; try done;
      try (change (paired ((b :: l) ++ trace')); apply IHbl; done).
    destruct b; try done. destruct H as (-> & -> & H).
    simpl. split; [done|]. split; [done|]. by apply IHl.
Qed.

Lemma paired_without_writes trace :
  Forall (fun eff => isStoreWrite eff = false) trace -> paired trace.
Proof.
  induction 1 as [|eff trace Heff Htrace IH]; [done|].
  destruct eff; try done; simpl; by destruct trace as [|[] ?].
Qed.

Lemma loaded_writes_nothing env this :
  Forall (fun eff : Eff => isStoreWrite eff = false /\ isReveal eff = false)
    (@onWebViewLoaded Method LegacyModeledMethod ModeledMethods View Failure
       convertToLegacyModeledMethod env this).2.
Proof.
  unfold onWebViewLoaded, setViewState, setInitialState. simpl.
  constructor; [done|]. apply Forall_app. split; [|repeat constructor].
  destruct (hasStateForActiveDb env); [|done].
  destruct (getSelectedMethodDetails env); repeat constructor.
Qed.

Lemma reveals_write_nothing (m : Method) (views : list View) :
  Forall (fun eff : Eff => isStoreWrite eff = false)
    (map (fun view => revealMethod view m) views).
Proof. induction views; by constructor. Qed.

(** What a step writes to the store: nothing, unless the webview sends
    a modeled method while a database is held. *)
Lemma step_writes env i this :
  Forall (fun eff => isStoreWrite eff = false) (advance env i this).2
  \/ exists db m,
       (advance env i this).2
       = [updateModeledMethods db (legacySignature m)
            (convertFromLegacyModeledMethod m);
          addModifiedMethod db (legacySignature m)].
Proof.
  destruct i as [msg|e|e|e| |dbUri| |db m]; simpl.
  - destruct msg as [|action|error|m|m|]; simpl.
    + left. eapply Forall_impl; [apply (loaded_writes_nothing env this)|].
      by intros eff [Hw _].
    + left. destruct (telemetryListener env); repeat constructor.
    + left. repeat constructor.
    + destruct (databaseItem this) as [db|]; [right; eauto|by left].
    + left. unfold revealInModelEditor.
      destruct (databaseItem this) as [db|]; [|done].
      destruct (getViews env (databaseUri db)) as [|v vs]; [done|].
      apply (reveals_write_nothing m (v :: vs)).
    + left. repeat constructor.
  - left. unfold onModeledMethodsChanged. simpl.
    destruct (_ && _); [|done]. destruct (_ !! _); [|done].
    destruct (convertToLegacyModeledMethod _); repeat constructor.
  - left. unfold onModifiedMethodsChanged. simpl.
    destruct (_ && _); [|done]. destruct (method this); repeat constructor.
  - left. unfold onSelectedMethodChanged.
    destruct (webviewView env); repeat constructor.
  - left. repeat constructor.
  - left. unfold onDbClosed, setMethod.
    destruct (databaseItem this) as [db|];
      [destruct (String.eqb dbUri (databaseUri db))|];
      destruct (anyDbsBeingModeled env), (isShowingView env);
      repeat constructor.
  - left. repeat constructor.
  - left. unfold setMethod. destruct (isShowingView env); repeat constructor.
Qed.

Lemma run_is_paired (inputs : list (Surroundings * In)) this :
  paired (running inputs this).2.
Proof.
  revert this. induction inputs as [|[env i] inputs IH]; intros this; [done|].
  simpl. destruct (advance env i this) as [this' trace] eqn:Hstep.
  specialize (IH this').
  destruct (running inputs this') as [this'' trace']. simpl in *.
  apply paired_app; [|done].
  destruct (step_writes env i this) as [Hno|(db & m & Hpair)];
    rewrite Hstep in *; simpl in *.
  - by apply paired_without_writes.
  - by rewrite Hpair.
Qed.

(** X11. In every run of the provider, whatever reaches it and in
    whatever order, a write of modeled methods to the store is at once
    followed by the mark of the same method of the same database as
    modified, and no method is marked without such a write. *)
Theorem store_writes_are_paired
    (inputs : list (Surroundings * In)) this :
  paired
    (run signature legacySignature convertToLegacyModeledMethod
       convertFromLegacyModeledMethod inputs this).2.
Proof. apply run_is_paired. Qed.

Lemma receive_keeps_fields env msg this :
  (receive env msg this).1 = this.
Proof.
  destruct msg as [|action|error|m|m|]; simpl; try done.
  - by destruct (databaseItem this).
  - unfold revealInModelEditor. destruct (databaseItem this) as [db|]; [|done].
    by destruct (getViews env (databaseUri db)).
Qed.

Lemma webview_alone_without_database
    (msgs : list (Surroundings * FromView)) this :
  databaseItem this = None ->
  (running (asInputs msgs) this).1 = this
  /\ Forall (fun eff => isStoreWrite eff = false /\ isReveal eff = false)
       (running (asInputs msgs) this).2.
Proof.
  intros Hdb. induction msgs as [|[env msg] msgs [IHthis IHtrace]]; [by split|].
  simpl. pose proof (receive_keeps_fields env msg this) as Hkeep.
  destruct (receive env msg this) as [this' trace] eqn:Hmsg.
  simpl in Hkeep. subst this'.
  destruct (running (asInputs msgs) this) as [this'' trace'].
  simpl in *. split; [done|]. apply Forall_app. split; [|done].
  destruct msg as [|action|error|m|m|]; simpl in Hmsg.
  - pose proof (loaded_writes_nothing env this) as Hloaded.
    unfold onWebViewLoaded in Hloaded |- *. by injection Hmsg as <-.
  - injection Hmsg as <-.
    destruct (telemetryListener env); repeat constructor.
  - injection Hmsg as <-. repeat constructor.
  - rewrite Hdb in Hmsg. by injection Hmsg as <-.
  - unfold revealInModelEditor in Hmsg. rewrite Hdb in Hmsg.
    by injection Hmsg as <-.
  - injection Hmsg as <-. repeat constructor.
Qed.

(** X12. Once the database the provider holds is closed, the provider
    holds neither method nor database, and whatever the webview sends
    from then on, alone, writes nothing to the store and reveals
    nothing in a model editor. *)
Theorem closed_database_drops_edits env (db : DatabaseItem) this
    (msgs : list (Surroundings * FromView)) :
  databaseItem this = Some db ->
  let closed :=
    (@onDbClosed Method LegacyModeledMethod ModeledMethods View Failure
       env (databaseUri db) this).1 in
  method closed = None
  /\ databaseItem closed = None
  /\ Forall (fun eff => isStoreWrite eff = false /\ isReveal eff = false)
       (run signature legacySignature convertToLegacyModeledMethod
          convertFromLegacyModeledMethod (asInputs msgs) closed).2.
Proof.
  intros Hdb. cbv zeta.
  assert (Hclosed :
    (close env (databaseUri db) this).1
    = {| method := None; databaseItem := None |}).
  { unfold onDbClosed. by rewrite Hdb, String.eqb_refl. }
  rewrite Hclosed. split; [done|]. split; [done|].
  by apply webview_alone_without_database.
Qed.

(** X13. The webview cannot change what the provider holds: after any
    of its messages the method and the database are the ones held
    before. They change on a selection in the store, and then only
    while the webview exists: without it the selection is dropped, and
    a modeled method sent later is written for the database held
    before. With it, a modeled method sent later is written for the
    database of the selection. *)
Theorem selection_needs_the_webview env env'
    (e : @SelectedMethodChanged Method ModeledMethods) msg
    (m : LegacyModeledMethod) this :
  let selected :=
    (@onSelectedMethodChanged Method LegacyModeledMethod ModeledMethods View
       Failure convertToLegacyModeledMethod env e this).1 in
  (onMessage legacySignature convertToLegacyModeledMethod
     convertFromLegacyModeledMethod env msg this).1 = this
  /\ (if webviewView env
      then (onMessage legacySignature convertToLegacyModeledMethod
              convertFromLegacyModeledMethod env'
              (From_setModeledMethod m : FromView) selected).2
           = [updateModeledMethods (smc_databaseItem e) (legacySignature m)
                (convertFromLegacyModeledMethod m);
              addModifiedMethod (smc_databaseItem e) (legacySignature m)]
      else selected = this).
Proof.
  cbv zeta. split; [apply receive_keeps_fields|].
  unfold onSelectedMethodChanged. by destruct (webviewView env).
Qed.

End Panel.

(** X12 on a provider that holds a database, which is closed, after
    which the webview sends a modeled method, asks for a reveal and
    starts modeling. *)
Lemma closed_database_drops_edits_witness :
  let closed :=
    (@MethodModeling.onDbClosed string string (list string) string string
       Scenario.env "file:///db" Scenario.holding).1 in
  MethodModeling.method closed = None
  /\ MethodModeling.databaseItem closed = None
  /\ Forall (fun eff =>
               MethodModeling.isStoreWrite eff = false
               /\ MethodModeling.isReveal eff = false)
       (MethodModeling.run (fun m => m) (fun m => m) head (fun m => [m])
          (MethodModeling.asInputs Scenario.afterwards) closed).2.
Proof.
  apply (closed_database_drops_edits (fun m => m) (fun m => m) head
           (fun m => [m]) Scenario.env Scenario.db Scenario.holding
           Scenario.afterwards).
  reflexivity.
Defined.

Example edits_reach_the_store_before_closing :
  (MethodModeling.run (fun m => m) (fun m : string => m) head (fun m => [m])
     (MethodModeling.asInputs (View := string) (Failure := string)
        [ (Scenario.env,
           MethodModeling.From_setModeledMethod "com.foo.Bar#baz(int,int)") ])
     Scenario.holding).2
  = [ MethodModeling.updateModeledMethods Scenario.db
        "com.foo.Bar#baz(int,int)" ["com.foo.Bar#baz(int,int)"];
      MethodModeling.addModifiedMethod Scenario.db
        "com.foo.Bar#baz(int,int)" ].
Proof. reflexivity. Qed.

(** ** Sessions of the panel: the handlers and their registration *)

Section PanelSessions.

Import MethodModeling.

Context {Method LegacyModeledMethod ModeledMethods View Failure : Type}.
Variable signature : Method -> string.
Variable legacySignature : LegacyModeledMethod -> string.
Variable convertToLegacyModeledMethod :
  ModeledMethods -> option LegacyModeledMethod.
Variable convertFromLegacyModeledMethod :
  LegacyModeledMethod -> ModeledMethods.

Local Abbreviation Eff :=
  (@Effect Method LegacyModeledMethod ModeledMethods View Failure).
Local Abbreviation Prov := (@Provider Method).
Local Abbreviation Surroundings :=
  (@Env Method ModeledMethods View).
Local Abbreviation In :=
  (@Input Method LegacyModeledMethod ModeledMethods Failure).
Local Abbreviation running :=
  (run signature legacySignature convertToLegacyModeledMethod
     convertFromLegacyModeledMethod).
Local Abbreviation living :=
  (session signature legacySignature convertToLegacyModeledMethod
     convertFromLegacyModeledMethod).
Local Abbreviation loaded :=
  (fromView From_viewLoaded : In).
Local Abbreviation everyEmitter :=
  [ ModeledMethodsChangedEvent; ModifiedMethodsChangedEvent;
    SelectedMethodChangedEvent; DbOpenedEvent; DbClosedEvent;
    DidChangeConfigurationEvent ].

Implicit Types (trace : list Eff) (this : Prov) (env : Surroundings).
Implicit Types (i : In) (registered : list Emitter).
Implicit Types (events inputs : list (Surroundings * In)).













End PanelSessions.


Example view_loaded_twice :
  (MethodModeling.session (fun m => m) (fun m : string => m) head
     (fun m => [m])
     [ (Scenario.env, MethodModeling.fromView MethodModeling.From_viewLoaded);
       (Scenario.env, MethodModeling.fromView MethodModeling.From_viewLoaded);
       (Scenario.env,
        MethodModeling.dbOpened (Method := string)
          (LegacyModeledMethod := string) (ModeledMethods := list string)
          (Failure := string)) ]
     [] Scenario.holding).2
  = [ MethodModeling.postMessage
        (MethodModeling.To_setMethodModelingPanelViewState false);
      MethodModeling.postMessage (MethodModeling.To_setInModelingMode true);
      MethodModeling.push MethodModeling.ModeledMethodsChangedEvent;
      MethodModeling.push MethodModeling.ModifiedMethodsChangedEvent;
      MethodModeling.push MethodModeling.SelectedMethodChangedEvent;
      MethodModeling.push MethodModeling.DbOpenedEvent;
      MethodModeling.push MethodModeling.DbClosedEvent;
      MethodModeling.push MethodModeling.DidChangeConfigurationEvent;
      MethodModeling.postMessage
        (MethodModeling.To_setMethodModelingPanelViewState false);
      MethodModeling.postMessage (MethodModeling.To_setInModelingMode true);
      MethodModeling.push MethodModeling.ModeledMethodsChangedEvent;
      MethodModeling.push MethodModeling.ModifiedMethodsChangedEvent;
      MethodModeling.push MethodModeling.SelectedMethodChangedEvent;
      MethodModeling.push MethodModeling.DbOpenedEvent;
      MethodModeling.push MethodModeling.DbClosedEvent;
      MethodModeling.push MethodModeling.DidChangeConfigurationEvent;
      MethodModeling.postMessage (MethodModeling.To_setInModelingMode true);
      MethodModeling.postMessage (MethodModeling.To_setInModelingMode true) ].
Proof. reflexivity. Qed.

(** ** Opening the data extensions editor *)

Section OpenEditor.

Import DataExtensionsEditor.

Context {ModelFile : Type}.
Variable CLI_VERSION_WITH_QLPACKS_KIND : string.
Variable CLI_VERSION_WITH_RESOLVE_EXTENSIONS : string.

Implicit Types (env : @Env ModelFile) (base : string).

Lemma supported_languages (lang : string) :
  includes SUPPORTED_LANGUAGES lang = true
  <-> lang = "java" \/ lang = "csharp".
Proof.
  unfold includes, SUPPORTED_LANGUAGES. simpl.
  destruct (String.eqb_spec lang "java"), (String.eqb_spec lang "csharp");
    simpl; split; try tauto; try done.
Qed.

Lemma writeQueryPackAndOpen_throws storage db (modelFile : ModelFile) :
  writeQueryPackAndOpen storage db modelFile
  = (inl (Js.ReferenceError "dir is not defined"), []).
Proof. done. Qed.


(** X15. When the command returns it has done one thing only: shown
    one error message, or asked for a pack and been given none. It asks
    only once the language and the two capabilities have passed. *)
Theorem returned_command_did_one_thing base env :
  (openDataExtensionsEditor CLI_VERSION_WITH_QLPACKS_KIND
     CLI_VERSION_WITH_RESOLVE_EXTENSIONS base env).1 = inr tt ->
  (exists message,
      (openDataExtensionsEditor CLI_VERSION_WITH_QLPACKS_KIND
         CLI_VERSION_WITH_RESOLVE_EXTENSIONS base env).2
      = [showAndLogErrorMessage message]
      /\ (currentDatabaseItem env = None
          \/ exists db,
               currentDatabaseItem env = Some db
               /\ (includes SUPPORTED_LANGUAGES (language db) = false
                   \/ supportsQlpacksKind env = false
                   \/ supportsResolveExtensions env = false)))
  \/ (exists db,
         (openDataExtensionsEditor CLI_VERSION_WITH_QLPACKS_KIND
            CLI_VERSION_WITH_RESOLVE_EXTENSIONS base env).2
         = [askedForExtensionPack db]
         /\ currentDatabaseItem env = Some db
         /\ pickExtensionPack env db = None
         /\ (language db = "java" \/ language db = "csharp")
         /\ supportsQlpacksKind env = true
         /\ supportsResolveExtensions env = true).
Proof.
  unfold openDataExtensionsEditor.
  destruct (currentDatabaseItem env) as [db|].
  2: { intros _. left. eexists. split; [done|]. by left. }
  pose proof (supported_languages (language db)) as Hlang.
  destruct (includes SUPPORTED_LANGUAGES (language db)) eqn:Hinc; cbn [negb].
  2: { intros _. left. eexists. split; [done|]. right. exists db. split; [done|]. by auto. }
  destruct (supportsQlpacksKind env) eqn:Hkind; cbn [negb].
  2: { intros _. left. eexists. split; [done|]. right. exists db. split; [done|]. by auto. }
  destruct (supportsResolveExtensions env) eqn:Hresolve; cbn [negb].
  2: { intros _. left. eexists. split; [done|]. right. exists db. split; [done|]. by auto. }
  destruct (pickExtensionPack env db) as [modelFile|] eqn:Hpick.
  - by rewrite writeQueryPackAndOpen_throws.
  - intros _. right. exists db.
    split; [done|]. split; [done|]. split; [done|].
    split; [by apply Hlang|done].
Qed.

End OpenEditor.

(** X15 on a Java database behind a CLI that cannot resolve
    extensions. *)
Lemma returned_command_did_one_thing_witness :
  (exists message,
      (DataExtensionsEditor.openDataExtensionsEditor "2.11.3" "2.12.0"
         "/storage" Scenario.oldCli).2
      = [DataExtensionsEditor.showAndLogErrorMessage message]
      /\ (DataExtensionsEditor.currentDatabaseItem Scenario.oldCli = None
          \/ exists db,
               DataExtensionsEditor.currentDatabaseItem Scenario.oldCli
               = Some db
               /\ (DataExtensionsEditor.includes
                     DataExtensionsEditor.SUPPORTED_LANGUAGES
                     (DataExtensionsEditor.language db) = false
                   \/ DataExtensionsEditor.supportsQlpacksKind
                        Scenario.oldCli = false
                   \/ DataExtensionsEditor.supportsResolveExtensions
                        Scenario.oldCli = false)))
  \/ (exists db,
         (DataExtensionsEditor.openDataExtensionsEditor "2.11.3" "2.12.0"
            "/storage" Scenario.oldCli).2
         = [DataExtensionsEditor.askedForExtensionPack db]
         /\ DataExtensionsEditor.currentDatabaseItem Scenario.oldCli
            = Some db
         /\ DataExtensionsEditor.pickExtensionPack Scenario.oldCli db = None
         /\ (DataExtensionsEditor.language db = "java"
             \/ DataExtensionsEditor.language db = "csharp")
         /\ DataExtensionsEditor.supportsQlpacksKind Scenario.oldCli = true
         /\ DataExtensionsEditor.supportsResolveExtensions Scenario.oldCli
            = true).
Proof.
  apply (returned_command_did_one_thing "2.11.3" "2.12.0" "/storage"
           Scenario.oldCli).
  reflexivity.
Defined.

Example command_throws_for_java :
  DataExtensionsEditor.openDataExtensionsEditor "2.11.3" "2.12.0" "/storage"
    Scenario.ready
  = (inl (Js.ReferenceError "dir is not defined"),
     [DataExtensionsEditor.askedForExtensionPack Scenario.java]).
Proof. reflexivity. Qed.

Example command_refuses_old_cli :
  DataExtensionsEditor.openDataExtensionsEditor "2.11.3" "2.12.0" "/storage"
    Scenario.oldCli
  = (inr tt,
     [DataExtensionsEditor.showAndLogErrorMessage
        "This feature requires CodeQL CLI version 2.12.0 or later."]).
Proof. reflexivity. Qed.

Example command_returns_without_pack :
  DataExtensionsEditor.openDataExtensionsEditor "2.11.3" "2.12.0" "/storage"
    Scenario.undecided
  = (inr tt, [DataExtensionsEditor.askedForExtensionPack Scenario.java]).
Proof. reflexivity. Qed.
